(** * PixiJS: the WebGPU graphics adaptor and the Application shell

    A shallow embedding of

    - [src/scene/graphics/gpu/GpuGraphicsAdaptor.ts] (module
      [GpuGraphicsAdaptor]) and
    - [src/app/Application.ts] (module [Application]).

    Both are imperative TypeScript: they mutate objects, call into other
    systems of the renderer and may throw.  A method body is embedded as a
    computation in the monad [Js.M]: it threads a store of the objects the
    method can reach, appends to a log of the calls it makes on objects that
    live outside the two files, and completes either normally or abruptly
    (a thrown [TypeError], a rejected promise).  As in JavaScript, what was
    written to the store before a throw stays written.

    Objects that the two files only pass around (a geometry, a GPU program,
    a texture, a matrix, a bind group, a plugin, ...) are represented by their
    identity, a number.  Functions that live in other files of the
    repository are parameters; they are assumed to return normally. *)

From stdpp Require Import gmap strings list fin_maps.
From Stdlib Require Import ZArith.

(** ** JavaScript method bodies as computations *)

Module Js.

Inductive Error : Type :=
| TypeError (what : string)   (* property access on null or undefined *)
| Rejection (what : string).  (* an awaited promise was rejected *)

Inductive Completion (A : Type) : Type :=
| Normal (a : A)
| Abrupt (e : Error).
Arguments Normal {A} a.
Arguments Abrupt {A} e.

Record Run (St Ev A : Type) : Type := MkRun {
  completion : Completion A;
  store : St;
  trace : list Ev
}.
Arguments MkRun {St Ev A} _ _ _.
Arguments completion {St Ev A} _.
Arguments store {St Ev A} _.
Arguments trace {St Ev A} _.

Definition M (St Ev A : Type) : Type := St → Run St Ev A.

Section Ops.
Context {St Ev : Type}.

Definition ret {A} (a : A) : M St Ev A := λ s, MkRun (Normal a) s [].

Definition bind {A B} (m : M St Ev A) (f : A → M St Ev B) : M St Ev B := λ s,
  match m s with
  | MkRun (Normal a) s1 t1 =>
      match f a s1 with
      | MkRun c s2 t2 => MkRun c s2 (t1 ++ t2)
      end
  | MkRun (Abrupt e) s1 t1 => MkRun (Abrupt e) s1 t1
  end.

Definition get : M St Ev St := λ s, MkRun (Normal s) s [].
Definition modify (f : St → St) : M St Ev unit := λ s, MkRun (Normal tt) (f s) [].
Definition emit (e : Ev) : M St Ev unit := λ s, MkRun (Normal tt) s [e].
Definition throw {A} (e : Error) : M St Ev A := λ s, MkRun (Abrupt e) s [].

(** [for (let i = from; i < from + count; i++) body(i)] *)
Fixpoint for_range (from count : nat) (body : nat → M St Ev unit) : M St Ev unit :=
  match count with
  | O => ret tt
  | S count' => bind (body from) (λ _, for_range (S from) count' body)
  end.
End Ops.

Declare Scope js_scope.
Delimit Scope js_scope with js.
Notation "'let*' x ':=' m 'in' k" := (bind m (λ x, k))
  (at level 10, x name, m at level 100, k at level 200) : js_scope.
Notation "m ';;' k" := (bind m (λ _, k))
  (at level 100, k at level 200, right associativity) : js_scope.

End Js.

(** ** [GpuGraphicsAdaptor]: data model and methods *)

Module GpuGraphicsAdaptor.
Import Js.
Local Open Scope js_scope.

(** Identities of the objects the adaptor passes around. *)
Definition Matrix := nat.
Definition Geometry := nat.
Definition GpuProgram := nat.
Definition Texture := nat.
Definition BindGroup := nat.
Definition GPUBindGroup := nat.
Definition BLEND_MODES := nat.
Definition BatchableObject := nat.
(** The address of a [Batch] object in the store. *)
Definition BatchRef := nat.

(** [batch.textures]: a [BatchTextureArray]. *)
Record BatchTextureArray : Type := {
  textures : list Texture;
  count : nat
}.

(** The fields of a [Batch] that [execute] reads or writes.  [bindGroup]
    and [gpuBindGroup] are [None] while the property is null or
    undefined. *)
Record Batch : Type := {
  batch_start : Z;
  batch_size : Z;
  batch_textures : BatchTextureArray;
  batch_bindGroup : option BindGroup;
  batch_gpuBindGroup : option GPUBindGroup
}.

Definition set_bindGroup (g : option BindGroup) (b : Batch) : Batch :=
  {| batch_start := batch_start b; batch_size := batch_size b;
     batch_textures := batch_textures b;
     batch_bindGroup := g; batch_gpuBindGroup := batch_gpuBindGroup b |}.

Definition set_gpuBindGroup (g : option GPUBindGroup) (b : Batch) : Batch :=
  {| batch_start := batch_start b; batch_size := batch_size b;
     batch_textures := batch_textures b;
     batch_bindGroup := batch_bindGroup b; batch_gpuBindGroup := g |}.

(** [graphicsPipe.state] *)
Record State : Type := { blendMode : BLEND_MODES }.

(** What the adaptor needs from the rest of the renderer.  [Float32Array]
    is the contents of a typed array; [color32BitToUniform c out offset]
    (from [./colorToUniform]) gives the contents of [out] after the call.
    [Systems] is the private state of the renderer systems; the three
    getters may read and update it (caches, allocation cursors) and return
    an object. *)
Class Collaborators : Type := {
  Float32Array : Type;
  color32BitToUniform : Z → Float32Array → nat → Float32Array;
  Systems : Type;
  getTextureBatchBindGroup : list Texture → nat → Systems → BindGroup * Systems;
  bindGroup_getBindGroup : BindGroup → GpuProgram → nat → Systems → GPUBindGroup * Systems;
  uniformBatch_getUniformBindGroup :
    Matrix → Float32Array → bool → Systems → BindGroup * Systems
}.

Section Adaptor.
Context `{Collaborators}.

(** [shader.resources.localUniforms.uniforms] *)
Record Uniforms : Type := {
  uTransformMatrix : Matrix;
  uColor : Float32Array
}.

(** A [Shader]: its program, its local uniform group, and [shader.groups],
    an object indexed by slot number whose entries may hold null. *)
Record Shader : Type := {
  gpuProgram : GpuProgram;
  localUniforms : Uniforms;
  groups : gmap nat (option BindGroup)
}.

Definition set_uTransformMatrix (m : Matrix) (s : Shader) : Shader :=
  {| gpuProgram := gpuProgram s;
     localUniforms := {| uTransformMatrix := m; uColor := uColor (localUniforms s) |};
     groups := groups s |}.

Definition set_uColor (c : Float32Array) (s : Shader) : Shader :=
  {| gpuProgram := gpuProgram s;
     localUniforms := {| uTransformMatrix := uTransformMatrix (localUniforms s); uColor := c |};
     groups := groups s |}.

Definition set_group (slot : nat) (g : option BindGroup) (s : Shader) : Shader :=
  {| gpuProgram := gpuProgram s; localUniforms := localUniforms s;
     groups := <[slot := g]> (groups s) |}.

(** The objects [execute] and [destroy] can reach and change.  The adaptor's
    own shader and the custom shader of the context are two objects, each
    held by value; the batch objects are held by address, since the same
    object may be listed more than once and is written in place. *)
Record World : Type := {
  _shader : option Shader;          (* this._shader *)
  customShader : option Shader; (* renderable.view.context.customShader *)
  pipe_state : State;                   (* graphicsPipe.state *)
  heap : gmap BatchRef Batch;           (* the Batch objects *)
  systems : Systems                     (* renderer systems *)
}.

(** What one call of [execute] reads and does not change: the renderable's
    layer values, the renderer's global bind group, and what the context
    system returns for the renderable's context. *)
Record Frame : Type := {
  layerBlendMode : BLEND_MODES;
  layerTransform : Matrix;
  layerColor : Z;
  globalUniforms_bindGroup : BindGroup;    (* renderer.globalUniforms.bindGroup *)
  gpuContext_batches : list BatchableObject; (* getGpuContext(context).batches *)
  geometry : Geometry;                     (* getContextRenderData(context).geometry *)
  instructions : list BatchRef;            (* ....instructions.instructions *)
  instructionSize : nat                    (* ....instructions.instructionSize *)
}.

(** Calls made on objects outside the adaptor, in the order made. *)
Inductive Call : Type :=
| SetPipelineFromGeometryProgramAndState (g : Geometry) (p : GpuProgram) (s : State)
| SetGeometry (g : Geometry)
| SetBindGroup (index : nat) (bindGroup : option BindGroup) (p : GpuProgram)
| DrawIndexed (indexCount instanceCount firstIndex : Z)
| GetUniformBindGroup (m : Matrix) (c : Float32Array) (b : bool)
| GetTextureBatchBindGroup (ts : list Texture) (n : nat)
| GetBindGroup (g : BindGroup) (p : GpuProgram) (index : nat)
| ShaderDestroy (p : GpuProgram) (destroyPrograms : bool).

Abbreviation M := (Js.M World Call).

(** [context.customShader || this._shader] picks one of two objects. *)
Inductive ShaderSlot : Type := CustomShader | OwnShader.

Definition effective_shader (w : World) : ShaderSlot :=
  match customShader w with Some _ => CustomShader | None => OwnShader end.

Definition read_shader (sl : ShaderSlot) (w : World) : option Shader :=
  match sl with
  | CustomShader => customShader w
  | OwnShader => _shader w
  end.

Definition write_shader (sl : ShaderSlot) (s : option Shader) (w : World) : World :=
  match sl with
  | CustomShader =>
      {| _shader := _shader w; customShader := s;
         pipe_state := pipe_state w; heap := heap w; systems := systems w |}
  | OwnShader =>
      {| _shader := s; customShader := customShader w;
         pipe_state := pipe_state w; heap := heap w; systems := systems w |}
  end.

Definition write_state (st : State) (w : World) : World :=
  {| _shader := _shader w; customShader := customShader w;
     pipe_state := st; heap := heap w; systems := systems w |}.

Definition write_heap (h : gmap BatchRef Batch) (w : World) : World :=
  {| _shader := _shader w; customShader := customShader w;
     pipe_state := pipe_state w; heap := h; systems := systems w |}.

Definition write_systems (x : Systems) (w : World) : World :=
  {| _shader := _shader w; customShader := customShader w;
     pipe_state := pipe_state w; heap := heap w; systems := x |}.

(** Reading a property of the shader: a [TypeError] when it is null. *)
Definition the_shader (sl : ShaderSlot) : M Shader :=
  let* w := get in
  match read_shader sl w with
  | Some s => ret s
  | None => throw (TypeError "shader is null")
  end.

Definition update_shader (sl : ShaderSlot) (f : Shader → Shader) : M unit :=
  let* s := the_shader sl in
  modify (write_shader sl (Some (f s))).

(** Reading a property of [batches[i]]: a [TypeError] when the entry is
    missing (index past the end of the array, or not an object). *)
Definition the_batch (batches : list BatchRef) (i : nat) : M (BatchRef * Batch) :=
  let* w := get in
  match batches !! i with
  | Some r =>
      match heap w !! r with
      | Some b => ret (r, b)
      | None => throw (TypeError "batch is undefined")
      end
  | None => throw (TypeError "batch is undefined")
  end.

Definition update_batch (r : BatchRef) (f : Batch → Batch) : M unit :=
  modify (λ w, write_heap (alter f r (heap w)) w).

(** A call to one of the renderer systems: logged, and its result taken
    from the collaborator. *)
Definition call_system {A} (c : Call) (f : Systems → A * Systems) : M A :=
  emit c;;
  let* w := get in
  let '(a, x) := f (systems w) in
  modify (write_systems x);;
  ret a.

(** The body of the loop of [execute], lines 111 to 127. *)
Definition execute_batch (sl : ShaderSlot) (batches : list BatchRef) (i : nat) : M unit :=
  let* rb := the_batch batches i in
  let r := rb.1 in
  update_shader sl (set_group 1 (batch_bindGroup rb.2));;
  let* shader := the_shader sl in
  match batch_gpuBindGroup rb.2 with
  | None =>
      let textureBatch := batch_textures rb.2 in
      let* bg := call_system
                   (GetTextureBatchBindGroup (textures textureBatch) (count textureBatch))
                   (getTextureBatchBindGroup (textures textureBatch) (count textureBatch)) in
      update_batch r (set_bindGroup (Some bg));;
      let* gbg := call_system (GetBindGroup bg (gpuProgram shader) 1)
                    (bindGroup_getBindGroup bg (gpuProgram shader) 1) in
      update_batch r (set_gpuBindGroup (Some gbg))
  | Some _ => ret tt
  end;;
  let* rb' := the_batch batches i in
  emit (SetBindGroup 1 (batch_bindGroup rb'.2) (gpuProgram shader));;
  emit (DrawIndexed (batch_size rb'.2) 1 (batch_start rb'.2)).

(** [execute(graphicsPipe, renderable)], lines 58 to 129. *)
Definition execute (f : Frame) : M unit :=
  let* w := get in
  let shader := effective_shader w in
  if decide (length (gpuContext_batches f) = 0) then ret tt
  else
    modify (write_state {| blendMode := layerBlendMode f |});;
    let* _ := the_shader shader in
    update_shader shader (set_uTransformMatrix (layerTransform f));;
    update_shader shader
      (λ s, set_uColor (color32BitToUniform (layerColor f) (uColor (localUniforms s)) 0) s);;
    let* s := the_shader shader in
    let* w1 := get in
    emit (SetPipelineFromGeometryProgramAndState (geometry f) (gpuProgram s) (pipe_state w1));;
    emit (SetGeometry (geometry f));;
    emit (SetBindGroup 0 (Some (globalUniforms_bindGroup f)) (gpuProgram s));;
    let* localBindGroup :=
      call_system
        (GetUniformBindGroup (uTransformMatrix (localUniforms s)) (uColor (localUniforms s)) true)
        (uniformBatch_getUniformBindGroup
           (uTransformMatrix (localUniforms s)) (uColor (localUniforms s)) true) in
    emit (SetBindGroup 2 (Some localBindGroup) (gpuProgram s));;
    for_range 0 (instructionSize f) (execute_batch shader (instructions f)).

(** [destroy()], lines 131 to 135. *)
Definition destroy : M unit :=
  let* s := the_shader OwnShader in
  emit (ShaderDestroy (gpuProgram s) true);;
  modify (write_shader OwnShader None).

End Adaptor.
End GpuGraphicsAdaptor.

(** ** [Application]: data model and methods *)

Module Application.
Import Js.
Local Open Scope js_scope.

(** Identities of objects, and addresses of the objects in the store. *)
Definition ApplicationPlugin := nat.
Definition Container := nat.
Definition Renderer := nat.
Definition ArrayRef := nat.
Definition AppRef := nat.

(** An options object, [Partial<ApplicationOptions>]: property names to
    values. *)
Inductive Value : Type :=
| VBoolean (b : bool)
| VNumber (z : Z)
| VString (s : string).

Abbreviation Options := (gmap string Value).

(** [DestroyOptions]: a boolean, or an object of boolean flags. *)
Inductive DestroyOptions : Type :=
| DestroyFlag (b : bool)
| DestroyFlags (o : gmap string bool).

(** The fields of an [Application] instance; [None] is null or
    undefined. *)
Record Instance : Type := {
  stage : option Container;
  renderer : option Renderer
}.

Definition set_stage (c : option Container) (a : Instance) : Instance :=
  {| stage := c; renderer := renderer a |}.

Definition set_renderer (r : option Renderer) (a : Instance) : Instance :=
  {| stage := stage a; renderer := r |}.

(** The store: the [Application] instances, the arrays of plugins, and the
    static [Application._plugins], which holds the address of an array. *)
Record World : Type := {
  instances : gmap AppRef Instance;
  arrays : gmap ArrayRef (list ApplicationPlugin);
  _plugins : ArrayRef
}.

Definition write_instances (i : gmap AppRef Instance) (w : World) : World :=
  {| instances := i; arrays := arrays w; _plugins := _plugins w |}.

Definition write_arrays (a : gmap ArrayRef (list ApplicationPlugin)) (w : World) : World :=
  {| instances := instances w; arrays := a; _plugins := _plugins w |}.

(** [autoDetectRenderer] (from [../rendering/renderers/autoDetectRenderer])
    resolves to a renderer, or rejects ([None]). *)
Class Collaborators : Type := {
  autoDetectRenderer : Options → option Renderer
}.

(** Calls made on objects outside the class, in the order made.  A plugin
    call records the plugin, the value of [this] and the arguments.  What a
    plugin, the stage or the renderer does when called is not part of this
    file: the call is logged and returns. *)
Inductive Call : Type :=
| AutoDetectRenderer (options : Options)
| PluginInit (plugin : ApplicationPlugin) (this : AppRef) (options : Options)
| PluginDestroy (plugin : ApplicationPlugin) (this : AppRef)
| ContainerDestroy (c : Container) (options : DestroyOptions)
| RendererDestroy (r : Renderer) (options : DestroyOptions).

Abbreviation M := (Js.M World Call).

(** [{...target, ...source}]: the properties of [source] win. *)
Definition spread (target source : Options) : Options := source ∪ target.

(** The default options of [init], lines 74 to 76: an empty literal. *)
Definition defaultOptions : Options := ∅.

Definition the_instance (this : AppRef) : M Instance :=
  let* w := get in
  match instances w !! this with
  | Some a => ret a
  | None => throw (TypeError "this is undefined")
  end.

Definition update_instance (this : AppRef) (f : Instance → Instance) : M unit :=
  let* _ := the_instance this in
  modify (λ w, write_instances (alter f this (instances w)) w).

Definition the_array (r : ArrayRef) : M (list ApplicationPlugin) :=
  let* w := get in
  match arrays w !! r with
  | Some l => ret l
  | None => throw (TypeError "array is undefined")
  end.

(** [a.slice(0)]: a new array with the elements of [a]. *)
Definition slice0 (a : ArrayRef) : M ArrayRef :=
  let* l := the_array a in
  let* w := get in
  let r := fresh (dom (arrays w)) in
  modify (λ w, write_arrays (<[r := l]> (arrays w)) w);;
  ret r.

(** [a.reverse()]: reverses [a] in place. *)
Definition reverse_in_place (a : ArrayRef) : M unit :=
  let* l := the_array a in
  modify (λ w, write_arrays (<[a := reverse l]> (arrays w)) w).

(** [a.forEach(callback)]: the length is read once, the element at each
    index when its turn comes; an index with no element is skipped. *)
Definition forEach_step (a : ArrayRef) (callback : ApplicationPlugin → M unit) (i : nat)
  : M unit :=
  let* w := get in
  match arrays w !! a ≫= (λ l, l !! i) with
  | Some p => callback p
  | None => ret tt
  end.

Definition forEach (a : ArrayRef) (callback : ApplicationPlugin → M unit) : M unit :=
  let* l := the_array a in
  for_range 0 (length l) (forEach_step a callback).

Section Methods.
Context `{Collaborators}.

(** [init(options)], lines 70 to 87.  The one [await] is run to its end:
    a rejection of the promise is an abrupt completion of [init]. *)
Definition init (this : AppRef) (options : option Options) : M unit :=
  let options := spread (spread ∅ defaultOptions) (default ∅ options) in
  emit (AutoDetectRenderer options);;
  match autoDetectRenderer options with
  | None => throw (Rejection "autoDetectRenderer")
  | Some r =>
      update_instance this (set_renderer (Some r));;
      let* w := get in
      forEach (_plugins w) (λ plugin, emit (PluginInit plugin this options))
  end.

(** [destroy(options)], lines 131 to 148. *)
Definition destroy (this : AppRef) (options : option DestroyOptions) : M unit :=
  let options := default (DestroyFlag false) options in
  let* w := get in
  let* plugins := slice0 (_plugins w) in
  reverse_in_place plugins;;
  forEach plugins (λ plugin, emit (PluginDestroy plugin this));;
  let* a := the_instance this in
  match stage a with
  | Some c => emit (ContainerDestroy c options)
  | None => throw (TypeError "stage is null")
  end;;
  update_instance this (set_stage None);;
  let* a := the_instance this in
  match renderer a with
  | Some r => emit (RendererDestroy r options)
  | None => throw (TypeError "renderer is null")
  end;;
  update_instance this (set_renderer None).
End Methods.
End Application.


(** ** Reading the log of the adaptor *)

Module GpuGraphicsAdaptorLog.
Import GpuGraphicsAdaptor.

Section Log.
Context `{Collaborators}.

(** The arguments of the [drawIndexed] calls, in the order made. *)
Definition draw_calls (t : list Call) : list (Z * Z * Z) :=
  omap (λ c, match c with
             | DrawIndexed n k s => Some (n, k, s)
             | _ => None
             end) t.

(** The groups passed to [setBindGroup] for slot [index], in the order
    bound. *)
Definition bound_at (index : nat) (t : list Call) : list (option BindGroup) :=
  omap (λ c, match c with
             | SetBindGroup j g _ => if decide (j = index) then Some g else None
             | _ => None
             end) t.

(** A call that constructs the bind group of a batch's textures
    ([batch.bindGroup]), and a call that compiles it ([batch.gpuBindGroup]). *)
Definition is_bindGroup_construction (c : Call) : bool :=
  match c with
  | GetTextureBatchBindGroup _ _ => true
  | _ => false
  end.

Definition is_gpuBindGroup_construction (c : Call) : bool :=
  match c with
  | GetBindGroup _ _ _ => true
  | _ => false
  end.

Definition is_construction (c : Call) : bool :=
  is_bindGroup_construction c || is_gpuBindGroup_construction c.

(** A call through the uniform-batch allocator. *)
Definition is_uniform_resolution (c : Call) : bool :=
  match c with
  | GetUniformBindGroup _ _ _ => true
  | _ => false
  end.

(** A command recorded by the encoder. *)
Definition is_encoder_command (c : Call) : bool :=
  match c with
  | SetPipelineFromGeometryProgramAndState _ _ _ | SetGeometry _
  | SetBindGroup _ _ _ | DrawIndexed _ _ _ => true
  | _ => false
  end.

(** The calls of the batch loop: binding slot 1, drawing, and the
    construction of a batch's bind group. *)
Definition is_loop_call (c : Call) : Prop :=
  match c with
  | SetBindGroup j _ _ => j = 1
  | DrawIndexed _ _ _ | GetTextureBatchBindGroup _ _ | GetBindGroup _ _ _ => True
  | _ => False
  end.

(** The arguments of the draw call that covers a batch: its index count,
    one instance, its first index. *)
Definition batch_draw (b : Batch) : Z * Z * Z :=
  (batch_size b, 1%Z, batch_start b).

(** The calls of a log that satisfy [p]. *)
Definition calls_where (p : Call → bool) (t : list Call) : list Call :=
  List.filter p t.

(** A batch object whose [gpuBindGroup] is populated. *)
Definition populated (h : gmap BatchRef Batch) (r : BatchRef) : Prop :=
  ∃ b, h !! r = Some b ∧ is_Some (batch_gpuBindGroup b).

#[global] Instance populated_dec h r : Decision (populated h r).
Proof.
  unfold populated. destruct (h !! r) as [b|].
  - destruct (batch_gpuBindGroup b) as [g|] eqn:Hg.
    + left. exists b. split; [reflexivity | by exists g].
    + right. intros (b' & Hb' & [g Hg']). congruence.
  - right. intros (b' & Hb' & _). congruence.
Defined.

(** The batch objects among [rs] whose [gpuBindGroup] is not populated,
    each counted once. *)
Definition unpopulated (h : gmap BatchRef Batch) (rs : list BatchRef) : gset BatchRef :=
  list_to_set (filter (λ r, ¬ populated h r) rs).

(** The batch objects of the entries that are valid for the frame. *)
Definition frame_batches (f : Frame) : list BatchRef :=
  take (instructionSize f) (instructions f).
End Log.
End GpuGraphicsAdaptorLog.

(** ** Example stores and frames for the adaptor *)

Module GpuGraphicsAdaptorExamples.
Import GpuGraphicsAdaptor.

(** A stand-in for the rest of the renderer: a typed array is the list of
    its entries, the colour is written as its four 8-bit channels, and
    every getter hands out the next free identity. *)
Definition example_renderer : Collaborators := {|
  Float32Array := list Z;
  color32BitToUniform := λ c out offset,
    <[offset + 3 := Z.land (Z.shiftr c 24) 255]>
      (<[offset + 2 := Z.land (Z.shiftr c 16) 255]>
         (<[offset + 1 := Z.land (Z.shiftr c 8) 255]>
            (<[offset := Z.land c 255]> out)));
  Systems := nat;
  getTextureBatchBindGroup := λ _ _ x, (x, S x);
  bindGroup_getBindGroup := λ _ _ _ x, (x, S x);
  uniformBatch_getUniformBindGroup := λ _ _ _ x, (x, S x)
|}.

#[local] Existing Instance example_renderer.

Definition example_shader (program : GpuProgram) : Shader := {|
  gpuProgram := program;
  localUniforms := {| uTransformMatrix := 0; uColor := [1; 1; 1; 1]%Z |};
  groups := ∅
|}.

Definition example_batch (first indices : Z) (texture : Texture) : Batch := {|
  batch_start := first;
  batch_size := indices;
  batch_textures := {| textures := [texture]; count := 1 |};
  batch_bindGroup := None;
  batch_gpuBindGroup := None
|}.

(** An initialised adaptor, no custom shader, three batch objects that
    have not been drawn yet. *)
Definition example_world : World := {|
  _shader := Some (example_shader 7);
  customShader := None;
  pipe_state := {| blendMode := 0 |};
  heap := {[ 0 := example_batch 0 6 10;
             1 := example_batch 6 12 11;
             2 := example_batch 18 3 12 ]};
  systems := 100
|}.

(** The same, for a context with its own shader. *)
Definition example_world_custom : World := {|
  _shader := Some (example_shader 7);
  customShader := Some (example_shader 8);
  pipe_state := {| blendMode := 0 |};
  heap := heap example_world;
  systems := 100
|}.

(** A frame whose instruction array has room for three batches, two of
    them valid. *)
Definition example_frame : Frame := {|
  layerBlendMode := 1;
  layerTransform := 5;
  layerColor := 0xFF336699;
  globalUniforms_bindGroup := 50;
  gpuContext_batches := [20; 21];
  geometry := 3;
  instructions := [0; 1; 2];
  instructionSize := 2
|}.

(** A frame for a context with nothing to draw. *)
Definition example_empty_frame : Frame := {|
  layerBlendMode := 1;
  layerTransform := 5;
  layerColor := 0xFF336699;
  globalUniforms_bindGroup := 50;
  gpuContext_batches := [];
  geometry := 3;
  instructions := [];
  instructionSize := 0
|}.

(** Context data that does not agree with itself: no gpu-context batch, yet
    two valid instructions. *)
Definition example_inconsistent_frame : Frame := {|
  layerBlendMode := 1;
  layerTransform := 5;
  layerColor := 0xFF336699;
  globalUniforms_bindGroup := 50;
  gpuContext_batches := [];
  geometry := 3;
  instructions := [0; 1; 2];
  instructionSize := 2
|}.

(** An [instructionSize] larger than the instruction array. *)
Definition example_overlong_frame : Frame := {|
  layerBlendMode := 1;
  layerTransform := 5;
  layerColor := 0xFF336699;
  globalUniforms_bindGroup := 50;
  gpuContext_batches := [20; 21];
  geometry := 3;
  instructions := [0; 1];
  instructionSize := 3
|}.
End GpuGraphicsAdaptorExamples.

(** ** Reading the log of the application, and example stores *)

Module ApplicationLog.
Import Application.

(** A call of a plugin's [init] or [destroy]. *)
Definition is_plugin_call (c : Call) : bool :=
  match c with
  | PluginInit _ _ _ | PluginDestroy _ _ => true
  | _ => false
  end.

(** The plugin calls of a log, in the order made. *)
Definition plugin_calls (t : list Call) : list Call := List.filter is_plugin_call t.

(** The options [init] works with: the user's options over the defaults. *)
Definition merged_options (options : option Options) : Options :=
  spread (spread ∅ defaultOptions) (default ∅ options).

(** The options [destroy] works with: [false] when none are given. *)
Definition destroy_options (options : option DestroyOptions) : DestroyOptions :=
  default (DestroyFlag false) options.
End ApplicationLog.

Module ApplicationExamples.
Import Application.

(** Backend detection that always finds renderer 9. *)
Definition example_detection : Collaborators := {|
  autoDetectRenderer := λ _, Some 9
|}.

(** Backend detection that finds nothing. *)
Definition example_no_backend : Collaborators := {|
  autoDetectRenderer := λ _, None
|}.

(** One application (at address 1, stage 4, no renderer yet) and three
    registered plugins A = 11, B = 12, C = 13. *)
Definition example_world : World := {|
  instances := {[ 1 := {| stage := Some 4; renderer := None |} ]};
  arrays := {[ 0 := [11; 12; 13] ]};
  _plugins := 0
|}.

Definition example_options : Options :=
  {[ "antialias"%string := VBoolean true; "width"%string := VNumber 800 ]}.
End ApplicationExamples.

(** ** [Application]: rendering and the view getters *)

Module ApplicationView.
Import Js Application.
Local Open Scope js_scope.

(** Identities of the canvas element and of the screen rectangle. *)
Definition ICanvas := nat.
Definition Rectangle := nat.

(** What the properties [element] and [screen] of a renderer hold. *)
Class RendererProperties : Type := {
  renderer_element : Renderer → ICanvas;
  renderer_screen : Renderer → Rectangle
}.

(** The call [render] makes: [renderer.render({ container })], with the
    container it was given ([None] for null). *)
Inductive RenderCall : Type :=
| RendererRender (r : Renderer) (container : option Container).

(** The log of a whole life of an application: the calls of [init] and
    [destroy], and the render calls. *)
Definition LifeCall : Type := Call + RenderCall.

Abbreviation L := (Js.M World LifeCall).

(** A computation with its calls written into a larger log. *)
Definition relog {St Ev Ev' A} (g : Ev → Ev') (m : Js.M St Ev A) : Js.M St Ev' A :=
  λ s, match m s with MkRun c s' t => MkRun c s' (g <$> t) end.

(** Reading [this.renderer.<property>]: a [TypeError] when the renderer is
    null or undefined. *)
Definition the_renderer (this : AppRef) : L Renderer :=
  let* a := relog inl (the_instance this) in
  match renderer a with
  | Some r => ret r
  | None => throw (TypeError "renderer is null")
  end.

(** [render()], lines 90 to 93. *)
Definition render (this : AppRef) : L unit :=
  let* r := the_renderer this in
  let* a := relog inl (the_instance this) in
  emit (inr (RendererRender r (stage a))).

Section Getters.
Context `{RendererProperties}.

(** [get canvas()], lines 100 to 103. *)
Definition canvas (this : AppRef) : L ICanvas :=
  let* r := the_renderer this in
  ret (renderer_element r).

(** [get screen()], lines 110 to 113. *)
Definition screen (this : AppRef) : L Rectangle :=
  let* r := the_renderer this in
  ret (renderer_screen r).
End Getters.

(** [init] and [destroy] in the log of a whole life. *)
Definition life_init `{Collaborators} (this : AppRef) (options : option Options) : L unit :=
  relog inl (init this options).

Definition life_destroy `{Collaborators} (this : AppRef) (options : option DestroyOptions)
  : L unit :=
  relog inl (destroy this options).

(** Example properties: renderer 9 has canvas 30 and screen 31. *)
Definition example_properties : RendererProperties := {|
  renderer_element := λ r, r + 21;
  renderer_screen := λ r, r + 22
|}.
End ApplicationView.
(** ** Facts about computations *)

Module JsFacts.
Import Js.

Section Facts.
Context {St Ev : Type}.
Implicit Types (s : St) (t : list Ev).

Lemma bind_normal {A B} (m : M St Ev A) (f : A → M St Ev B) s a :
  completion (m s) = Normal a →
  bind m f s =
    MkRun (completion (f a (store (m s)))) (store (f a (store (m s))))
          (trace (m s) ++ trace (f a (store (m s)))).
Proof.
  intros Hm. unfold bind. destruct (m s) as [c s1 t1]. simpl in *. subst c.
  by destruct (f a s1).
Qed.

Lemma bind_abrupt {A B} (m : M St Ev A) (f : A → M St Ev B) s e :
  completion (m s) = Abrupt e →
  bind m f s = MkRun (Abrupt e) (store (m s)) (trace (m s)).
Proof.
  intros Hm. unfold bind. destruct (m s) as [c s1 t1]. simpl in *. by subst c.
Qed.

(** A property of the store kept by every step, and a property of the
    calls every step makes, hold of the whole loop, however it ends. *)
Lemma for_range_invariant (I : St → Prop) (T : Ev → Prop) (body : nat → M St Ev unit) :
  (∀ i s, I s → I (store (body i s)) ∧ Forall T (trace (body i s))) →
  ∀ count from s, I s →
    I (store (for_range from count body s)) ∧
    Forall T (trace (for_range from count body s)).
Proof.
  intros Hbody. induction count as [|k IH]; intros from s Hs; simpl.
  - split; [done | constructor].
  - destruct (Hbody from s Hs) as [HI HT].
    unfold bind. destruct (body from s) as [[[]|e] s1 t1]; simpl in *.
    + destruct (IH (S from) _ HI) as [HI' HT'].
      destruct (for_range (S from) k body s1) as [c s2 t2]; simpl in *.
      split; [done | by apply Forall_app].
    + done.
Qed.

End Facts.

(** Updating a property of an object that exists. *)
Lemma alter_lookup_insert {V} (h : gmap nat V) r v (g : V → V) :
  h !! r = Some v → alter g r h = <[r := g v]> h.
Proof.
  intros Hr. apply map_eq. intros j.
  destruct (decide (r = j)) as [->|Hne].
  - by rewrite lookup_alter_eq, lookup_insert_eq, Hr.
  - by rewrite lookup_alter_ne, lookup_insert_ne.
Qed.

(** Reading one element of a list given as the image of another. *)
Lemma lookup_of_fmap_Some {A B} (l : list A) (l' : list B) (g : B → option A) i y x :
  Some <$> l = g <$> l' → l' !! i = Some y → g y = Some x → l !! i = Some x.
Proof.
  intros Heq Hy Hg.
  assert (Hi : (Some <$> l) !! i = (g <$> l') !! i) by by rewrite Heq.
  rewrite !list_lookup_fmap, Hy in Hi. simpl in Hi. rewrite Hg in Hi.
  destruct (l !! i); simpl in Hi; congruence.
Qed.

Lemma length_of_fmap_Some {A B} (l : list A) (l' : list B) (g : B → option A) :
  Some <$> l = g <$> l' → length l = length l'.
Proof. intros Heq. apply (f_equal length) in Heq. by rewrite !length_fmap in Heq. Qed.
End JsFacts.

(** ** Facts about [GpuGraphicsAdaptor] *)

Module GpuGraphicsAdaptorFacts.
Import Js JsFacts GpuGraphicsAdaptor GpuGraphicsAdaptorLog.

Section Facts.
Context `{Collaborators}.
Implicit Types (w : World) (f : Frame) (b : Batch) (s : Shader) (sl : ShaderSlot).

Lemma read_write_shader sl o w : read_shader sl (write_shader sl o w) = o.
Proof. by destruct sl. Qed.

Lemma pipe_state_write_shader sl o w : pipe_state (write_shader sl o w) = pipe_state w.
Proof. by destruct sl. Qed.

Lemma heap_write_shader sl o w : heap (write_shader sl o w) = heap w.
Proof. by destruct sl. Qed.

Lemma systems_write_shader sl o w : systems (write_shader sl o w) = systems w.
Proof. by destruct sl. Qed.

Lemma write_shader_twice sl o o' w :
  write_shader sl o (write_shader sl o' w) = write_shader sl o w.
Proof. by destruct sl. Qed.

Ltac js_unfold :=
  cbv [execute_batch the_batch update_shader the_shader update_batch call_system
       bind get modify emit ret throw];
  cbn [completion store trace fst snd].

Ltac js_rewrite :=
  rewrite ?read_write_shader, ?heap_write_shader, ?systems_write_shader;
  cbn [completion store trace fst snd heap systems write_heap write_systems].

Lemma execute_batch_cached sl batches i w r b g s :
  batches !! i = Some r → heap w !! r = Some b →
  batch_gpuBindGroup b = Some g → read_shader sl w = Some s →
  execute_batch sl batches i w =
    MkRun (Normal tt)
      (write_shader sl (Some (set_group 1 (batch_bindGroup b) s)) w)
      [SetBindGroup 1 (batch_bindGroup b) (gpuProgram s);
       DrawIndexed (batch_size b) 1 (batch_start b)].
Proof.
  intros Hi Hr Hg Hs. js_unfold.
  rewrite Hi, Hr, Hs. js_rewrite. rewrite Hg. js_rewrite. rewrite Hr.
  reflexivity.
Qed.

Lemma execute_batch_fresh sl batches i w r b s :
  batches !! i = Some r → heap w !! r = Some b →
  batch_gpuBindGroup b = None → read_shader sl w = Some s →
  ∃ bg gbg x,
    execute_batch sl batches i w =
      MkRun (Normal tt)
        (write_systems x
           (write_heap
              (<[r := set_gpuBindGroup (Some gbg) (set_bindGroup (Some bg) b)]> (heap w))
              (write_shader sl (Some (set_group 1 (batch_bindGroup b) s)) w)))
        [GetTextureBatchBindGroup (textures (batch_textures b)) (count (batch_textures b));
         GetBindGroup bg (gpuProgram s) 1;
         SetBindGroup 1 (Some bg) (gpuProgram s);
         DrawIndexed (batch_size b) 1 (batch_start b)].
Proof.
  intros Hi Hr Hg Hs. js_unfold.
  rewrite Hi, Hr, Hs. js_rewrite. rewrite Hg. js_rewrite.
  destruct (getTextureBatchBindGroup _ _ _) as [bg x1]. js_rewrite.
  destruct (bindGroup_getBindGroup _ _ _ _) as [gbg x2]. js_rewrite.
  exists bg, gbg, x2.
  rewrite !lookup_alter_eq, Hr. cbn [fmap option_fmap option_map completion store trace snd app].
  f_equal.
  rewrite (alter_lookup_insert _ _ _ _ Hr).
  rewrite (alter_lookup_insert _ r (set_bindGroup (Some bg) b)) by apply lookup_insert_eq.
  rewrite insert_insert_eq.
  by destruct w, sl.
Qed.
(** One turn of the loop on a batch that exists. *)
Lemma execute_batch_valid sl batches i w r b s :
  batches !! i = Some r → heap w !! r = Some b → read_shader sl w = Some s →
  ∃ b' x pre,
    execute_batch sl batches i w =
      MkRun (Normal tt)
        (write_systems x
           (write_heap (<[r := b']> (heap w))
              (write_shader sl (Some (set_group 1 (batch_bindGroup b) s)) w)))
        (pre ++ [SetBindGroup 1 (batch_bindGroup b') (gpuProgram s);
                 DrawIndexed (batch_size b) 1 (batch_start b)]) ∧
    batch_draw b' = batch_draw b ∧
    is_Some (batch_gpuBindGroup b') ∧
    draw_calls pre = [] ∧
    bound_at 1 pre = [] ∧
    Forall is_loop_call pre ∧
    (is_Some (batch_gpuBindGroup b) → b' = b ∧ pre = [] ∧ x = systems w).
Proof.
  intros Hi Hr Hs. destruct (batch_gpuBindGroup b) as [g|] eqn:Hg.
  - exists b, (systems w), []. split; [|rewrite Hg; by repeat split].
    rewrite (execute_batch_cached _ _ _ _ _ _ _ _ Hi Hr Hg Hs).
    f_equal. rewrite (insert_id _ _ _ Hr). by destruct w, sl.
  - destruct (execute_batch_fresh _ _ _ _ _ _ _ Hi Hr Hg Hs) as (bg & gbg & x & Hrun).
    exists (set_gpuBindGroup (Some gbg) (set_bindGroup (Some bg) b)), x,
      [GetTextureBatchBindGroup (textures (batch_textures b)) (count (batch_textures b));
       GetBindGroup bg (gpuProgram s) 1].
    split; [by rewrite Hrun|]. split; [done|]. split; [by eexists|]. split; [done|].
    split; [done|]. split; [by repeat constructor|].
    by intros [? ?].
Qed.

(** One turn of the loop on any store: a batch whose [gpuBindGroup] is
    populated is left as it is, and only loop calls are made. *)
Lemma execute_batch_keeps sl batches i w :
  (∀ r b, heap w !! r = Some b → is_Some (batch_gpuBindGroup b) →
     heap (store (execute_batch sl batches i w)) !! r = Some b) ∧
  Forall is_loop_call (trace (execute_batch sl batches i w)).
Proof.
  destruct (batches !! i) as [r'|] eqn:Hi;
    [destruct (heap w !! r') as [b'|] eqn:Hr';
     [destruct (read_shader sl w) as [s|] eqn:Hs|]|].
  - destruct (execute_batch_valid _ _ _ _ _ _ _ Hi Hr' Hs)
      as (b'' & x & pre & -> & _ & _ & _ & _ & Hpre & Hsame).
    cbn [store trace heap write_systems write_heap]. split.
    + intros r b Hr Hg. destruct (decide (r' = r)) as [->|Hne].
      * rewrite Hr in Hr'. injection Hr' as ->.
        destruct (Hsame Hg) as (-> & _). by rewrite lookup_insert_eq.
      * by rewrite lookup_insert_ne.
    + apply Forall_app. split; [done | by repeat constructor].
  - js_unfold. rewrite Hi, Hr'. js_rewrite. rewrite Hs. by split.
  - js_unfold. rewrite Hi, Hr'. by split.
  - js_unfold. rewrite Hi. by split.
Qed.

Lemma loop_keeps sl batches count from w :
  (∀ r b, heap w !! r = Some b → is_Some (batch_gpuBindGroup b) →
     heap (store (for_range from count (execute_batch sl batches) w)) !! r = Some b) ∧
  Forall is_loop_call (trace (for_range from count (execute_batch sl batches) w)).
Proof.
  pose proof (for_range_invariant
    (λ w', ∀ r b, heap w !! r = Some b → is_Some (batch_gpuBindGroup b) →
                  heap w' !! r = Some b)
    is_loop_call (execute_batch sl batches)) as Hinv.
  apply Hinv; [|done].
  intros i w' Hw'. destruct (execute_batch_keeps sl batches i w') as [Hk Ht].
  split; [|done]. intros r b Hr Hg. apply Hk; [by apply Hw' | done].
Qed.

Lemma draw_calls_app (t1 t2 : list Call) :
  draw_calls (t1 ++ t2) = draw_calls t1 ++ draw_calls t2.
Proof. apply omap_app. Qed.

(** The loop over entries that all exist: it completes, and draws the
    entries in order. *)
Lemma loop_draws sl batches count : ∀ from w s,
  read_shader sl w = Some s →
  (∀ i, from ≤ i < from + count →
     ∃ r, batches !! i = Some r ∧ is_Some (heap w !! r)) →
  ∃ w' t,
    for_range from count (execute_batch sl batches) w = MkRun (Normal tt) w' t ∧
    Some <$> draw_calls t =
      (λ r, batch_draw <$> heap w !! r) <$> take count (drop from batches) ∧
    (∀ r, batch_draw <$> heap w' !! r = batch_draw <$> heap w !! r) ∧
    is_Some (read_shader sl w') ∧
    Forall (populated (heap w')) (take count (drop from batches)).
Proof.
  induction count as [|k IH]; intros from w s Hs Hvalid.
  - exists w, []. cbn [for_range take]. unfold ret. repeat split; by eauto.
  - destruct (Hvalid from ltac:(lia)) as (r & Hi & [b Hr]).
    destruct (execute_batch_valid _ _ _ _ _ _ _ Hi Hr Hs)
      as (b' & x & pre & Hrun & Hdraw & Hpop & Hpre & _).
    set (w1 := write_systems x _) in Hrun.
    assert (Hgeom : ∀ r', batch_draw <$> heap w1 !! r' = batch_draw <$> heap w !! r').
    { intros r'. unfold w1. cbn [heap write_systems write_heap].
      destruct (decide (r = r')) as [<-|Hne].
      - by rewrite lookup_insert_eq, Hr; simpl; rewrite Hdraw.
      - by rewrite lookup_insert_ne. }
    destruct (IH (S from) w1 (set_group 1 (batch_bindGroup b) s))
      as (w' & t & Hloop & Hdraws & Hgeom' & Hs' & Hpops).
    { unfold w1. by destruct sl. }
    { intros i Hrange. destruct (Hvalid i ltac:(lia)) as (r' & Hi' & Hr').
      exists r'. split; [done|].
      apply fmap_is_Some with (f := batch_draw). rewrite Hgeom.
      by apply fmap_is_Some. }
    exists w', ((pre ++ [SetBindGroup 1 (batch_bindGroup b') (gpuProgram s);
                         DrawIndexed (batch_size b) 1 (batch_start b)]) ++ t).
    split; [|split; [|split; [|split]]].
    + cbn [for_range]. unfold bind at 1. by rewrite Hrun, Hloop.
    + rewrite !draw_calls_app, Hpre.
      change (draw_calls [_; _]) with [batch_draw b].
      rewrite (drop_S _ _ _ Hi). cbn [take app].
      rewrite !fmap_cons. f_equal; [by rewrite Hr|].
      rewrite Hdraws. apply list_fmap_ext. intros ? r' _. apply Hgeom.
    + intros r'. by rewrite Hgeom'.
    + done.
    + rewrite (drop_S _ _ _ Hi). cbn [take]. apply Forall_cons. split; [|done].
      exists b'. split; [|done].
      pose proof (loop_keeps sl batches k (S from) w1) as [Hkeep _].
      rewrite Hloop in Hkeep. apply Hkeep; [|done].
      unfold w1. cbn [heap write_systems write_heap]. apply lookup_insert_eq.
Qed.
Lemma bound_at_app k (t1 t2 : list Call) :
  bound_at k (t1 ++ t2) = bound_at k t1 ++ bound_at k t2.
Proof. apply omap_app. Qed.

(** The loop over entries whose bind groups are all populated: nothing is
    constructed, no batch is written, and each turn binds the cached
    group.  (The loop stops with a [TypeError] past the end of the
    array.) *)
Lemma loop_cached sl batches count : ∀ from w s,
  read_shader sl w = Some s →
  Forall (populated (heap w)) (take count (drop from batches)) →
  let R := for_range from count (execute_batch sl batches) w in
  heap (store R) = heap w ∧
  systems (store R) = systems w ∧
  Forall (λ c, is_construction c = false) (trace R) ∧
  Some <$> bound_at 1 (trace R) =
    (λ r, batch_bindGroup <$> heap w !! r) <$> take count (drop from batches).
Proof.
  induction count as [|k IH]; intros from w s Hs Hpop R.
  - subst R. cbn [for_range take]. unfold ret. by repeat split.
  - subst R. cbn [for_range]. unfold bind.
    destruct (batches !! from) as [r|] eqn:Hi.
    + rewrite (drop_S _ _ _ Hi) in Hpop |- *. cbn [take] in Hpop |- *.
      apply Forall_cons in Hpop as [(b & Hr & [g Hg]) Hpop].
      rewrite (execute_batch_cached _ _ _ _ _ _ _ _ Hi Hr Hg Hs).
      set (w1 := write_shader sl _ w).
      assert (Hh : heap w1 = heap w) by apply heap_write_shader.
      destruct (IH (S from) w1 (set_group 1 (batch_bindGroup b) s))
        as (Hheap & Hsys & Hcons & Hbound).
      { apply read_write_shader. }
      { by rewrite Hh. }
      destruct (for_range _ k _ w1) as [c w' t]. cbn [store trace] in *.
      split; [congruence|]. split; [by rewrite Hsys; apply systems_write_shader|].
      split; [by repeat constructor|].
      rewrite bound_at_app. change (bound_at 1 [_; _]) with [batch_bindGroup b].
      cbn [app]. rewrite !fmap_cons. f_equal; [by rewrite Hr|].
      by rewrite Hbound, Hh.
    + assert (Hrun : execute_batch sl batches from w =
                     MkRun (Abrupt (TypeError "batch is undefined")) w []).
      { js_unfold. by rewrite Hi. }
      rewrite Hrun. cbn [store trace].
      rewrite drop_ge by by apply lookup_ge_None.
      rewrite take_nil. by repeat split.
Qed.

Lemma unpopulated_cons_populated (h : gmap BatchRef Batch) r rs :
  populated h r → unpopulated h (r :: rs) = unpopulated h rs.
Proof. intros Hp. unfold unpopulated. by rewrite filter_cons_False by tauto. Qed.

Lemma unpopulated_cons_unpopulated (h : gmap BatchRef Batch) r rs :
  ¬ populated h r → unpopulated h (r :: rs) = {[r]} ∪ unpopulated h rs.
Proof. intros Hp. unfold unpopulated. by rewrite filter_cons_True by done. Qed.

(** Populating one batch removes it, and only it, from the unpopulated. *)
Lemma unpopulated_insert (h : gmap BatchRef Batch) r b rs :
  is_Some (batch_gpuBindGroup b) →
  unpopulated (<[r := b]> h) rs = unpopulated h rs ∖ {[r]}.
Proof.
  intros Hb. apply set_eq. intros x. unfold unpopulated.
  rewrite elem_of_difference, !elem_of_list_to_set, !list_elem_of_filter, elem_of_singleton.
  unfold populated. destruct (decide (x = r)) as [->|Hne].
  - rewrite lookup_insert_eq. split; [|tauto].
    intros [Hn _]. destruct Hn. by exists b.
  - rewrite lookup_insert_ne by done. tauto.
Qed.

Lemma size_unpopulated_cons (h : gmap BatchRef Batch) r rs :
  ¬ populated h r →
  size (unpopulated h (r :: rs)) = S (size (unpopulated h rs ∖ {[r]})).
Proof.
  intros Hp. rewrite (unpopulated_cons_unpopulated _ _ _ Hp).
  replace ({[r]} ∪ unpopulated h rs) with ({[r]} ∪ unpopulated h rs ∖ {[r]}).
  - rewrite size_union, size_singleton; [done|].
    apply disjoint_singleton_l. rewrite elem_of_difference, elem_of_singleton. tauto.
  - apply set_eq. intros x. rewrite !elem_of_union, elem_of_difference, elem_of_singleton.
    destruct (decide (x = r)); tauto.
Qed.

Lemma calls_where_app p (t1 t2 : list Call) :
  calls_where p (t1 ++ t2) = calls_where p t1 ++ calls_where p t2.
Proof. apply List.filter_app. Qed.

(** The loop over entries that all exist constructs, and compiles, one bind
    group for each batch object that came in unpopulated. *)
Lemma loop_constructs sl batches count : ∀ from w s,
  read_shader sl w = Some s →
  (∀ i, from ≤ i < from + count →
     ∃ r, batches !! i = Some r ∧ is_Some (heap w !! r)) →
  let t := trace (for_range from count (execute_batch sl batches) w) in
  length (calls_where is_bindGroup_construction t) =
    size (unpopulated (heap w) (take count (drop from batches))) ∧
  length (calls_where is_gpuBindGroup_construction t) =
    size (unpopulated (heap w) (take count (drop from batches))).
Proof.
  induction count as [|k IH]; intros from w s Hs Hvalid t.
  - subst t. cbn [for_range take]. unfold ret. cbn [trace]. by split.
  - destruct (Hvalid from ltac:(lia)) as (r & Hi & [b Hr]).
    subst t. cbn [for_range]. unfold bind.
    rewrite (drop_S _ _ _ Hi). cbn [take].
    destruct (batch_gpuBindGroup b) as [g|] eqn:Hg.
    + rewrite (execute_batch_cached _ _ _ _ _ _ _ _ Hi Hr Hg Hs).
      set (w1 := write_shader sl _ w).
      assert (Hh : heap w1 = heap w) by apply heap_write_shader.
      destruct (IH (S from) w1 (set_group 1 (batch_bindGroup b) s)) as [H1 H2].
      { apply read_write_shader. }
      { intros i Hrange. rewrite Hh. apply Hvalid. lia. }
      rewrite Hh in H1, H2.
      destruct (for_range _ k _ w1) as [c w' t']. cbn [trace] in *.
      rewrite unpopulated_cons_populated by (exists b; by rewrite Hg).
      rewrite !calls_where_app. by split.
    + destruct (execute_batch_fresh _ _ _ _ _ _ _ Hi Hr Hg Hs) as (bg & gbg & x & ->).
      set (b' := set_gpuBindGroup (Some gbg) (set_bindGroup (Some bg) b)).
      set (w1 := write_systems x _).
      assert (Hh : heap w1 = <[r := b']> (heap w)) by done.
      destruct (IH (S from) w1 (set_group 1 (batch_bindGroup b) s)) as [H1 H2].
      { unfold w1. by destruct sl. }
      { intros i Hrange. destruct (Hvalid i ltac:(lia)) as (r' & Hi' & Hr').
        exists r'. split; [done|]. rewrite Hh.
        destruct (decide (r = r')) as [<-|Hne];
          [by rewrite lookup_insert_eq | by rewrite lookup_insert_ne]. }
      rewrite Hh in H1, H2.
      rewrite (unpopulated_insert _ r b') in H1 by by eexists.
      rewrite (unpopulated_insert _ r b') in H2 by by eexists.
      destruct (for_range _ k _ w1) as [c w' t']. cbn [trace] in *.
      rewrite size_unpopulated_cons.
      2:{ intros (b0 & Hb0 & [g0 Hg0]). congruence. }
      rewrite !calls_where_app.
      change (calls_where is_bindGroup_construction [_; _; _; _])
        with [GetTextureBatchBindGroup (textures (batch_textures b)) (count (batch_textures b))].
      change (calls_where is_gpuBindGroup_construction [_; _; _; _])
        with [GetBindGroup bg (gpuProgram s) 1].
      cbn [app length]. by rewrite H1, H2.
Qed.

Lemma loop_call_bound_at k (t : list Call) :
  k ≠ 1 → Forall is_loop_call t → bound_at k t = [].
Proof.
  intros Hk. induction 1 as [|c t Hc _ IH]; [done|].
  unfold bound_at in *. cbn [omap list_omap]. rewrite IH.
  destruct c; try done. simpl in Hc. subst. by destruct (decide (1 = k)).
Qed.

Lemma loop_call_calls_where (t : list Call) :
  Forall is_loop_call t → calls_where is_uniform_resolution t = [].
Proof.
  induction 1 as [|c t Hc _ IH]; [done|].
  unfold calls_where in *. cbn [List.filter]. rewrite IH. by destruct c.
Qed.

Lemma no_construction_calls_where (t : list Call) :
  Forall (λ c, is_construction c = false) t → calls_where is_construction t = [].
Proof.
  induction 1 as [|c t Hc _ IH]; [done|].
  unfold calls_where in *. cbn [List.filter]. by rewrite Hc, IH.
Qed.

(** The three ways [execute] can go. *)
Lemma execute_early f w :
  gpuContext_batches f = [] → execute f w = MkRun (Normal tt) w [].
Proof.
  intros Hb. cbv [execute bind get ret]. rewrite Hb.
  destruct (decide _) as [|Hne]; [done | by destruct Hne].
Qed.

Lemma execute_null_shader f w :
  gpuContext_batches f ≠ [] → read_shader (effective_shader w) w = None →
  execute f w =
    MkRun (Abrupt (TypeError "shader is null"))
          (write_state {| blendMode := layerBlendMode f |} w) [].
Proof.
  intros Hb Hs. cbv [execute bind get ret modify the_shader throw].
  destruct (decide _) as [Hlen|_].
  { destruct (gpuContext_batches f); [done | discriminate Hlen]. }
  assert (Hs1 : read_shader (effective_shader w)
                  (write_state {| blendMode := layerBlendMode f |} w) = None).
  { rewrite <- Hs. by destruct (effective_shader w). }
  by rewrite Hs1.
Qed.

Lemma execute_setup f w s :
  gpuContext_batches f ≠ [] → read_shader (effective_shader w) w = Some s →
  let sl := effective_shader w in
  let st := {| blendMode := layerBlendMode f |} in
  let c := color32BitToUniform (layerColor f) (uColor (localUniforms s)) 0 in
  let s' := set_uColor c (set_uTransformMatrix (layerTransform f) s) in
  let lx := uniformBatch_getUniformBindGroup (layerTransform f) c true (systems w) in
  let w1 := write_systems lx.2 (write_shader sl (Some s') (write_state st w)) in
  let R := for_range 0 (instructionSize f) (execute_batch sl (instructions f)) w1 in
  execute f w =
    MkRun (completion R) (store R)
      ([SetPipelineFromGeometryProgramAndState (geometry f) (gpuProgram s) st;
        SetGeometry (geometry f);
        SetBindGroup 0 (Some (globalUniforms_bindGroup f)) (gpuProgram s);
        GetUniformBindGroup (layerTransform f) c true;
        SetBindGroup 2 (Some lx.1) (gpuProgram s)] ++ trace R).
Proof.
  intros Hb Hs sl st c s'. cbv zeta.
  destruct (uniformBatch_getUniformBindGroup (layerTransform f) c true (systems w))
    as [l x] eqn:Hlx.
  cbn [fst snd].
  cbv [execute bind get ret modify the_shader throw update_shader emit call_system].
  destruct (decide _) as [Hlen|_].
  { destruct (gpuContext_batches f); [done | discriminate Hlen]. }
  fold sl. fold st.
  assert (Hs1 : read_shader sl (write_state st w) = Some s).
  { rewrite <- Hs. unfold sl. by destruct (effective_shader w). }
  repeat progress
    (rewrite ?Hs1, ?read_write_shader, ?systems_write_shader, ?pipe_state_write_shader;
     cbv [bind get ret modify the_shader throw update_shader emit call_system];
     cbn [completion store trace fst snd systems pipe_state write_systems write_state
          gpuProgram localUniforms uTransformMatrix uColor set_uColor
          set_uTransformMatrix]).
  fold c. rewrite Hlx.
  repeat progress
    (rewrite ?Hs1, ?read_write_shader, ?systems_write_shader, ?pipe_state_write_shader;
     cbv [bind get ret modify the_shader throw update_shader emit call_system];
     cbn [completion store trace fst snd systems pipe_state write_systems write_state
          gpuProgram localUniforms uTransformMatrix uColor set_uColor
          set_uTransformMatrix]).
  rewrite write_shader_twice. fold s'.
  by destruct (for_range _ _ _ _).
Qed.
Lemma adaptor_destroy_run w s :
  _shader w = Some s →
  destroy w = MkRun (Normal tt) (write_shader OwnShader None w)
                    [ShaderDestroy (gpuProgram s) true].
Proof.
  intros Hs. cbv [destroy the_shader bind get ret emit modify read_shader].
  by rewrite Hs.
Qed.

Lemma adaptor_destroy_normal w :
  completion (destroy w) = Normal tt →
  ∃ s, _shader w = Some s ∧ store (destroy w) = write_shader OwnShader None w.
Proof.
  destruct (_shader w) as [s|] eqn:Hs.
  - intros _. exists s. by rewrite (adaptor_destroy_run _ _ Hs).
  - cbv [destroy the_shader bind get ret emit modify read_shader throw].
    by rewrite Hs.
Qed.

Lemma valid_entries f w :
  instructionSize f ≤ length (instructions f) →
  Forall (λ r, is_Some (heap w !! r)) (frame_batches f) →
  ∀ i, i < instructionSize f →
    ∃ r, instructions f !! i = Some r ∧ is_Some (heap w !! r).
Proof.
  intros Hlen Hall i Hi.
  destruct (lookup_lt_is_Some_2 (instructions f) i ltac:(lia)) as [r Hr].
  exists r. split; [done|].
  apply (proj1 (Forall_lookup _ _) Hall i). unfold frame_batches.
  by rewrite lookup_take_lt.
Qed.

(** C1 ([execute], lines 107 to 128).  On a frame whose context data is
    consistent (a context with no batch has no valid instruction), with a
    shader to draw with and the first [instructionSize] entries of the
    instruction array present, [execute] returns normally, issues exactly
    [instructionSize] indexed draw calls, and the i-th of them is
    [drawIndexed(batch.size, 1, batch.start)] for the i-th batch of the
    array; entries past [instructionSize] are not drawn. *)
Theorem execute_draws_each_batch f w :
  (gpuContext_batches f = [] → instructionSize f = 0) →
  is_Some (read_shader (effective_shader w) w) →
  instructionSize f ≤ length (instructions f) →
  Forall (λ r, is_Some (heap w !! r)) (frame_batches f) →
  completion (execute f w) = Normal tt ∧
  length (draw_calls (trace (execute f w))) = instructionSize f ∧
  ∀ i r b,
    i < instructionSize f → instructions f !! i = Some r → heap w !! r = Some b →
    draw_calls (trace (execute f w)) !! i = Some (batch_size b, 1%Z, batch_start b).
Proof.
  intros Hcons [s Hs] Hlen Hall.
  destruct (decide (gpuContext_batches f = [])) as [Hnil|Hne].
  - rewrite (execute_early _ _ Hnil), (Hcons Hnil).
    cbn [completion trace]. split; [done|]. split; [done|]. intros; lia.
  - rewrite (execute_setup _ _ _ Hne Hs). cbv zeta. cbn [completion trace].
    set (w1 := write_systems _ _).
    assert (Hh : heap w1 = heap w).
    { unfold w1. cbn [heap write_systems]. by rewrite heap_write_shader. }
    destruct (loop_draws (effective_shader w) (instructions f) (instructionSize f) 0 w1
                (set_uColor
                   (color32BitToUniform (layerColor f) (uColor (localUniforms s)) 0)
                   (set_uTransformMatrix (layerTransform f) s)))
      as (w' & t & -> & Hdraws & _).
    { unfold w1. cbn [write_systems]. by destruct (effective_shader w). }
    { intros i Hi. rewrite Hh. apply valid_entries; [done | done | lia]. }
    cbn [completion trace]. rewrite draw_calls_app.
    change (draw_calls [_; _; _; _; _]) with (@nil (Z * Z * Z)). cbn [app].
    rewrite drop_0, Hh in Hdraws.
    split; [done|]. split.
    + rewrite (length_of_fmap_Some _ _ _ Hdraws), length_take. lia.
    + intros i r b Hi Hr Hb.
      apply (lookup_of_fmap_Some _ _ _ i r _ Hdraws).
      * by rewrite lookup_take_lt.
      * by rewrite Hb.
Qed.

(** C2 ([execute], lines 65 to 67).  For a context whose gpu-context batch
    list is empty, [execute] returns normally, leaves the whole store as
    it was (the blend mode of the pipe, both shaders with their local
    uniforms and bind groups, every batch object) and makes no call on
    the encoder or on any other system. *)
Theorem execute_empty_context_noop f w :
  gpuContext_batches f = [] →
  execute f w = MkRun (Normal tt) w [].
Proof. apply execute_early. Qed.
(** A completed pass over the valid entries leaves every one of them
    with a populated [gpuBindGroup]. *)
Lemma execute_populates f w :
  gpuContext_batches f ≠ [] →
  is_Some (read_shader (effective_shader w) w) →
  instructionSize f ≤ length (instructions f) →
  Forall (λ r, is_Some (heap w !! r)) (frame_batches f) →
  Forall (populated (heap (store (execute f w)))) (frame_batches f).
Proof.
  intros Hne [s Hs] Hlen Hall.
  rewrite (execute_setup _ _ _ Hne Hs). cbv zeta. cbn [store].
  set (w1 := write_systems _ _).
  assert (Hh : heap w1 = heap w).
  { unfold w1. cbn [heap write_systems]. by rewrite heap_write_shader. }
  destruct (loop_draws (effective_shader w) (instructions f) (instructionSize f) 0 w1
              (set_uColor
                 (color32BitToUniform (layerColor f) (uColor (localUniforms s)) 0)
                 (set_uTransformMatrix (layerTransform f) s)))
    as (w' & t & -> & _ & _ & _ & Hpop).
  { unfold w1. cbn [write_systems]. by destruct (effective_shader w). }
  { intros i Hi. rewrite Hh. apply valid_entries; [done | done | lia]. }
  by rewrite drop_0 in Hpop.
Qed.

(** A complete pass constructs, and compiles, one bind group for each batch
    object among the valid entries that came in unpopulated. *)
Lemma execute_constructs f w :
  gpuContext_batches f ≠ [] →
  is_Some (read_shader (effective_shader w) w) →
  instructionSize f ≤ length (instructions f) →
  Forall (λ r, is_Some (heap w !! r)) (frame_batches f) →
  length (calls_where is_bindGroup_construction (trace (execute f w))) =
    size (unpopulated (heap w) (frame_batches f)) ∧
  length (calls_where is_gpuBindGroup_construction (trace (execute f w))) =
    size (unpopulated (heap w) (frame_batches f)).
Proof.
  intros Hne [s Hs] Hlen Hall.
  rewrite (execute_setup _ _ _ Hne Hs). cbv zeta. cbn [trace].
  set (w1 := write_systems _ _).
  assert (Hh : heap w1 = heap w).
  { unfold w1. cbn [heap write_systems]. by rewrite heap_write_shader. }
  destruct (loop_constructs (effective_shader w) (instructions f) (instructionSize f) 0 w1
              (set_uColor
                 (color32BitToUniform (layerColor f) (uColor (localUniforms s)) 0)
                 (set_uTransformMatrix (layerTransform f) s)))
    as [H1 H2].
  { unfold w1. cbn [write_systems]. by destruct (effective_shader w). }
  { intros i Hi. rewrite Hh. apply valid_entries; [done | done | lia]. }
  rewrite drop_0, Hh in H1, H2. rewrite !calls_where_app.
  change (calls_where is_bindGroup_construction [_; _; _; _; _]) with (@nil Call).
  change (calls_where is_gpuBindGroup_construction [_; _; _; _; _]) with (@nil Call).
  by split.
Qed.

(** C3 ([execute], lines 113 to 125).  A batch whose [gpuBindGroup] is
    populated is never written by [execute], whatever the frame and however
    the call ends: its [bindGroup] and [gpuBindGroup] stay the same objects.
    A complete pass calls [getTextureBatchBindGroup] once and [getBindGroup]
    once for each batch object among the valid entries that came in
    unpopulated, and leaves every valid entry populated.  When every valid
    entry is populated, as on the second and every later pass, the call
    constructs no bind group at all, leaves all batch objects as they are,
    and the group it binds at slot 1 for the i-th entry is the cached
    [bindGroup] of that batch. *)
Theorem execute_reuses_cached_bind_group f w :
  (∀ r b, heap w !! r = Some b → is_Some (batch_gpuBindGroup b) →
     heap (store (execute f w)) !! r = Some b) ∧
  (gpuContext_batches f ≠ [] →
   is_Some (read_shader (effective_shader w) w) →
   instructionSize f ≤ length (instructions f) →
   Forall (λ r, is_Some (heap w !! r)) (frame_batches f) →
     length (calls_where is_bindGroup_construction (trace (execute f w))) =
       size (unpopulated (heap w) (frame_batches f)) ∧
     length (calls_where is_gpuBindGroup_construction (trace (execute f w))) =
       size (unpopulated (heap w) (frame_batches f)) ∧
     Forall (populated (heap (store (execute f w)))) (frame_batches f)) ∧
  (Forall (populated (heap w)) (frame_batches f) →
     heap (store (execute f w)) = heap w ∧
     calls_where is_construction (trace (execute f w)) = [] ∧
     (gpuContext_batches f ≠ [] → is_Some (read_shader (effective_shader w) w) →
      ∀ i r b,
        i < instructionSize f → instructions f !! i = Some r → heap w !! r = Some b →
        bound_at 1 (trace (execute f w)) !! i = Some (batch_bindGroup b))).
Proof.
  split; [|split].
  2:{ intros Hne Hs Hlen Hall.
      destruct (execute_constructs f w Hne Hs Hlen Hall) as [H1 H2].
      split; [done|]. split; [done|]. by apply execute_populates. }
  - (* a populated batch is kept *)
    intros r b Hr Hg.
    destruct (decide (gpuContext_batches f = [])) as [Hnil|Hne].
    { by rewrite (execute_early _ _ Hnil). }
    destruct (read_shader (effective_shader w) w) as [s|] eqn:Hs.
    + rewrite (execute_setup _ _ _ Hne Hs). cbv zeta. cbn [store].
      apply loop_keeps; [|done].
      cbn [heap write_systems]. by rewrite heap_write_shader.
    + by rewrite (execute_null_shader _ _ Hne Hs).
  - (* all valid entries populated *)
    intros Hpop.
    destruct (decide (gpuContext_batches f = [])) as [Hnil|Hne].
    { rewrite (execute_early _ _ Hnil). cbn [store trace].
      split; [done|]. split; [done|]. by intros []. }
    destruct (read_shader (effective_shader w) w) as [s|] eqn:Hs.
    + rewrite (execute_setup _ _ _ Hne Hs). cbv zeta. cbn [store trace].
      set (w1 := write_systems _ _).
      assert (Hh : heap w1 = heap w).
      { unfold w1. cbn [heap write_systems]. by rewrite heap_write_shader. }
      destruct (loop_cached (effective_shader w) (instructions f) (instructionSize f) 0 w1
                  (set_uColor
                     (color32BitToUniform (layerColor f) (uColor (localUniforms s)) 0)
                     (set_uTransformMatrix (layerTransform f) s)))
        as (Hheap & _ & Hcons & Hbound).
      { unfold w1. cbn [write_systems]. by destruct (effective_shader w). }
      { by rewrite drop_0, Hh. }
      rewrite drop_0, Hh in Hbound.
      split; [congruence|]. split.
      * apply no_construction_calls_where, Forall_app. split; [|done].
        by repeat constructor.
      * intros _ _ i r b Hi Hr Hb. rewrite bound_at_app.
        change (bound_at 1 [_; _; _; _; _]) with (@nil (option BindGroup)). cbn [app].
        apply (lookup_of_fmap_Some _ _ _ i r _ Hbound).
        -- by rewrite lookup_take_lt.
        -- by rewrite Hb.
    + rewrite (execute_null_shader _ _ Hne Hs). cbn [store trace].
      split; [done|]. split; [done|]. by intros _ [].
Qed.

(** C4, as amended ([destroy], lines 131 to 135; [execute], lines 58 to
    77).  After a [destroy] that returned, [execute] for a context that
    has batches and no custom shader throws a [TypeError] on the null
    shader, after writing the blend mode of the pipe and before any call
    on the encoder; for a context with no batch it returns normally and
    does nothing. *)
Theorem execute_after_destroy f w :
  completion (destroy w) = Normal tt →
  (gpuContext_batches f ≠ [] → customShader w = None →
     execute f (store (destroy w)) =
       MkRun (Abrupt (TypeError "shader is null"))
             (write_state {| blendMode := layerBlendMode f |} (store (destroy w))) []) ∧
  (gpuContext_batches f = [] →
     execute f (store (destroy w)) = MkRun (Normal tt) (store (destroy w)) []).
Proof.
  intros Hd. destruct (adaptor_destroy_normal _ Hd) as (s & Hs & ->). split.
  - intros Hne Hcustom. apply execute_null_shader; [done|].
    unfold effective_shader, read_shader, write_shader.
    cbn [customShader _shader]. by rewrite Hcustom.
  - apply execute_early.
Qed.

(** C7 ([execute], lines 98 to 128).  A call that gets past the early
    return with a shader makes, before the loop, the calls
    [setPipelineFromGeometryProgramAndState], [setGeometry],
    [setBindGroup(0, globalUniformsBindGroup)], [getUniformBindGroup] and
    [setBindGroup(2, localBindGroup)], and in the loop only
    [setBindGroup(1, ...)], [drawIndexed] and the construction of batch
    bind groups.  So slot 0 and slot 2 are bound once each per call, and
    the local uniforms are resolved once through the uniform batch. *)
Theorem execute_binds_uniforms_once f w s :
  gpuContext_batches f ≠ [] →
  read_shader (effective_shader w) w = Some s →
  let c := color32BitToUniform (layerColor f) (uColor (localUniforms s)) 0 in
  let localBindGroup :=
    (uniformBatch_getUniformBindGroup (layerTransform f) c true (systems w)).1 in
  (∃ loop,
     trace (execute f w) =
       [SetPipelineFromGeometryProgramAndState (geometry f) (gpuProgram s)
          {| blendMode := layerBlendMode f |};
        SetGeometry (geometry f);
        SetBindGroup 0 (Some (globalUniforms_bindGroup f)) (gpuProgram s);
        GetUniformBindGroup (layerTransform f) c true;
        SetBindGroup 2 (Some localBindGroup) (gpuProgram s)] ++ loop ∧
     Forall is_loop_call loop) ∧
  bound_at 0 (trace (execute f w)) = [Some (globalUniforms_bindGroup f)] ∧
  bound_at 2 (trace (execute f w)) = [Some localBindGroup] ∧
  calls_where is_uniform_resolution (trace (execute f w)) =
    [GetUniformBindGroup (layerTransform f) c true].
Proof.
  intros Hne Hs c localBindGroup.
  rewrite (execute_setup _ _ _ Hne Hs). cbv zeta. cbn [trace]. fold c.
  set (R := for_range _ _ _ _).
  assert (Hloop : Forall is_loop_call (trace R)) by apply loop_keeps.
  split; [by exists (trace R)|].
  rewrite !bound_at_app.
  rewrite (loop_call_bound_at 0 _ ltac:(done) Hloop).
  rewrite (loop_call_bound_at 2 _ ltac:(done) Hloop).
  unfold calls_where. rewrite List.filter_app.
  fold (calls_where is_uniform_resolution (trace R)).
  rewrite (loop_call_calls_where _ Hloop).
  done.
Qed.
End Facts.



End GpuGraphicsAdaptorFacts.

(** ** The adaptor on the example stores *)

Module GpuGraphicsAdaptorRuns.
Import Js GpuGraphicsAdaptor GpuGraphicsAdaptorLog GpuGraphicsAdaptorExamples
       GpuGraphicsAdaptorFacts.
#[local] Existing Instance example_renderer.

Example first_frame_log :
  trace (execute example_frame example_world) =
    [SetPipelineFromGeometryProgramAndState 3 7 {| blendMode := 1 |};
     SetGeometry 3;
     SetBindGroup 0 (Some 50) 7;
     GetUniformBindGroup 5 [153; 102; 51; 255]%Z true;
     SetBindGroup 2 (Some 100) 7;
     GetTextureBatchBindGroup [10] 1;
     GetBindGroup 101 7 1;
     SetBindGroup 1 (Some 101) 7;
     DrawIndexed 6 1 0;
     GetTextureBatchBindGroup [11] 1;
     GetBindGroup 103 7 1;
     SetBindGroup 1 (Some 103) 7;
     DrawIndexed 12 1 6].
Proof. vm_compute. reflexivity. Qed.

Example second_frame_log :
  trace (execute example_frame (store (execute example_frame example_world))) =
    [SetPipelineFromGeometryProgramAndState 3 7 {| blendMode := 1 |};
     SetGeometry 3;
     SetBindGroup 0 (Some 50) 7;
     GetUniformBindGroup 5 [153; 102; 51; 255]%Z true;
     SetBindGroup 2 (Some 105) 7;
     SetBindGroup 1 (Some 101) 7;
     DrawIndexed 6 1 0;
     SetBindGroup 1 (Some 103) 7;
     DrawIndexed 12 1 6].
Proof. vm_compute. reflexivity. Qed.

(** The early return looks at the batches of the gpu context, not at the
    instruction list. *)
Example early_return_tests_context_batches :
  execute example_inconsistent_frame example_world = MkRun (Normal tt) example_world [].
Proof. vm_compute. reflexivity. Qed.

(** Past the end of the instruction array the loop throws, after drawing
    the entries that exist. *)
Example overlong_frame_throws :
  completion (execute example_overlong_frame example_world) =
    Abrupt (TypeError "batch is undefined") ∧
  draw_calls (trace (execute example_overlong_frame example_world)) =
    [(6, 1, 0); (12, 1, 6)]%Z.
Proof. vm_compute. split; reflexivity. Qed.

(** The first frame on the example store: two draw calls, for the two
    valid entries. *)
Lemma execute_draws_each_batch_witness :
  completion (execute example_frame example_world) = Normal tt ∧
  length (draw_calls (trace (execute example_frame example_world))) =
    instructionSize example_frame ∧
  ∀ i r b,
    i < instructionSize example_frame →
    instructions example_frame !! i = Some r →
    heap example_world !! r = Some b →
    draw_calls (trace (execute example_frame example_world)) !! i =
      Some (batch_size b, 1%Z, batch_start b).
Proof.
  apply (execute_draws_each_batch example_frame example_world).
  - discriminate.
  - eexists. reflexivity.
  - simpl. lia.
  - repeat constructor; eexists; vm_compute; reflexivity.
Defined.

Lemma execute_empty_context_noop_witness :
  execute example_empty_frame example_world = MkRun (Normal tt) example_world [].
Proof. apply (execute_empty_context_noop example_empty_frame example_world). reflexivity. Defined.

(** Two frames in a row: the first constructs a bind group for each of the
    two valid entries, the second constructs none and binds the same
    objects. *)
Lemma execute_reuses_cached_bind_group_witness :
  let w1 := store (execute example_frame example_world) in
  length (calls_where is_bindGroup_construction
            (trace (execute example_frame example_world))) = 2 ∧
  Forall (populated (heap w1)) (frame_batches example_frame) ∧
  heap (store (execute example_frame w1)) = heap w1 ∧
  calls_where is_construction (trace (execute example_frame w1)) = [] ∧
  bound_at 1 (trace (execute example_frame w1)) !! 1 = Some (Some 103).
Proof.
  intros w1.
  destruct (execute_reuses_cached_bind_group example_frame example_world)
    as (_ & Hfirst & _).
  destruct Hfirst as (Hcount & _ & Hpop).
  { discriminate. }
  { eexists. reflexivity. }
  { simpl. lia. }
  { repeat constructor; eexists; vm_compute; reflexivity. }
  split; [exact Hcount|]. split; [exact Hpop|].
  destruct (execute_reuses_cached_bind_group example_frame w1) as (_ & _ & Hcached).
  destruct (Hcached Hpop) as (Hheap & Hnone & Hbound).
  split; [exact Hheap|]. split; [exact Hnone|].
  apply (Hbound ltac:(discriminate) ltac:(eexists; reflexivity) 1 1
           {| batch_start := 6; batch_size := 12;
              batch_textures := {| textures := [11]; count := 1 |};
              batch_bindGroup := Some 103; batch_gpuBindGroup := Some 104 |}).
  - simpl. lia.
  - reflexivity.
  - vm_compute. reflexivity.
Defined.

(** C4: after [destroy], an [execute] for a context with no batch returns
    normally and silently, and an [execute] for a context with its own
    shader draws as before. *)
Lemma execute_after_destroy_not_always_error :
  completion (destroy example_world) = Normal tt ∧
  _shader (store (destroy example_world)) = None ∧
  execute example_empty_frame (store (destroy example_world)) =
    MkRun (Normal tt) (store (destroy example_world)) [] ∧
  completion (destroy example_world_custom) = Normal tt ∧
  _shader (store (destroy example_world_custom)) = None ∧
  completion (execute example_frame (store (destroy example_world_custom))) = Normal tt ∧
  draw_calls (trace (execute example_frame (store (destroy example_world_custom)))) =
    [(6, 1, 0); (12, 1, 6)]%Z.
Proof. vm_compute. repeat split; reflexivity. Qed.

Lemma execute_after_destroy_witness :
  completion (destroy example_world) = Normal tt ∧
  execute example_frame (store (destroy example_world)) =
    MkRun (Abrupt (TypeError "shader is null"))
          (write_state {| blendMode := 1 |} (store (destroy example_world))) [] ∧
  execute example_empty_frame (store (destroy example_world)) =
    MkRun (Normal tt) (store (destroy example_world)) [].
Proof.
  split; [reflexivity|]. split.
  - apply (execute_after_destroy example_frame example_world);
      [reflexivity | discriminate | reflexivity].
  - apply (execute_after_destroy example_empty_frame example_world); reflexivity.
Defined.

Lemma execute_binds_uniforms_once_witness :
  bound_at 0 (trace (execute example_frame example_world)) = [Some 50] ∧
  bound_at 2 (trace (execute example_frame example_world)) = [Some 100] ∧
  calls_where is_uniform_resolution (trace (execute example_frame example_world)) =
    [GetUniformBindGroup 5 [153; 102; 51; 255]%Z true].
Proof.
  apply (execute_binds_uniforms_once example_frame example_world (example_shader 7)).
  - discriminate.
  - reflexivity.
Defined.
End GpuGraphicsAdaptorRuns.

(** ** Facts about [Application] *)

Module ApplicationFacts.
Import Js JsFacts Application ApplicationLog.

Section Facts.
Context `{Collaborators}.
Implicit Types (w : World) (l : list ApplicationPlugin) (a : Instance).

Ltac js_unfold :=
  cbv [the_instance update_instance the_array slice0 reverse_in_place forEach_step
       bind get modify emit ret throw];
  cbn [completion store trace fst snd instances arrays _plugins
       write_instances write_arrays].

(** [forEach] with a callback that only makes a call on each element. *)
Lemma forEach_steps (g : ApplicationPlugin → Call) r l w count : ∀ from,
  arrays w !! r = Some l → from + count = length l →
  for_range from count (forEach_step r (λ p, emit (g p))) w =
    MkRun (Normal tt) w (g <$> drop from l).
Proof.
  induction count as [|k IH]; intros from Hr Hlen.
  - cbn [for_range]. unfold ret. by rewrite drop_ge by lia.
  - destruct (lookup_lt_is_Some_2 l from ltac:(lia)) as [p Hp].
    cbn [for_range]. unfold bind.
    assert (Hstep : forEach_step r (λ p, emit (g p)) from w = MkRun (Normal tt) w [g p]).
    { js_unfold. rewrite Hr. cbn [mbind option_bind]. by rewrite Hp. }
    rewrite Hstep, (IH (S from)) by (done || lia).
    by rewrite (drop_S _ _ _ Hp).
Qed.

Lemma forEach_emit (g : ApplicationPlugin → Call) r l w :
  arrays w !! r = Some l →
  forEach r (λ p, emit (g p)) w = MkRun (Normal tt) w (g <$> l).
Proof.
  intros Hr. cbv [forEach bind the_array get ret throw]. rewrite Hr.
  by rewrite (forEach_steps g r l w (length l) 0 Hr).
Qed.
Lemma init_run this options w a l r :
  autoDetectRenderer (merged_options options) = Some r →
  instances w !! this = Some a →
  arrays w !! _plugins w = Some l →
  init this options w =
    MkRun (Normal tt)
      (write_instances (<[this := set_renderer (Some r) a]> (instances w)) w)
      (AutoDetectRenderer (merged_options options)
         :: ((λ p, PluginInit p this (merged_options options)) <$> l)).
Proof.
  intros Hr Ha Hl. unfold init. fold (merged_options options). rewrite Hr.
  js_unfold. rewrite Ha. js_unfold.
  rewrite (forEach_emit (λ p, PluginInit p this (merged_options options)) _ l) by done.
  by rewrite (alter_lookup_insert _ _ _ _ Ha).
Qed.

Lemma destroy_no_registry this options w :
  arrays w !! _plugins w = None →
  destroy this options w = MkRun (Abrupt (TypeError "array is undefined")) w [].
Proof. intros Hl. unfold destroy. js_unfold. by rewrite Hl. Qed.

Lemma application_destroy_run this options w l :
  arrays w !! _plugins w = Some l →
  let w2 := write_arrays (<[fresh (dom (arrays w)) := reverse l]> (arrays w)) w in
  let T := (λ p, PluginDestroy p this) <$> reverse l in
  let opts := destroy_options options in
  destroy this options w =
    match instances w !! this with
    | None => MkRun (Abrupt (TypeError "this is undefined")) w2 T
    | Some a =>
        match stage a with
        | None => MkRun (Abrupt (TypeError "stage is null")) w2 T
        | Some c =>
            match renderer a with
            | None =>
                MkRun (Abrupt (TypeError "renderer is null"))
                  (write_instances (<[this := set_stage None a]> (instances w)) w2)
                  (T ++ [ContainerDestroy c opts])
            | Some r =>
                MkRun (Normal tt)
                  (write_instances
                     (<[this := {| stage := None; renderer := None |}]> (instances w)) w2)
                  (T ++ [ContainerDestroy c opts; RendererDestroy r opts])
            end
        end
    end.
Proof.
  intros Hl w2 T opts. unfold destroy. fold (destroy_options options). fold opts.
  js_unfold. rewrite Hl. js_unfold. rewrite lookup_insert_eq. js_unfold.
  rewrite insert_insert_eq.
  change (write_arrays ?X (write_arrays _ w)) with (write_arrays X w). fold w2.
  rewrite (forEach_emit (λ p, PluginDestroy p this) _ (reverse l))
    by apply lookup_insert_eq.
  fold T. change (instances w2) with (instances w).
  destruct (instances w !! this) as [a|] eqn:Ha;
    [|by cbn [app]; rewrite ?app_nil_r].
  cbn [completion store trace].
  destruct (stage a) as [c|] eqn:Hc; [|by cbn [app]; rewrite ?app_nil_r].
  unfold w2. js_unfold. rewrite Ha. js_unfold.
  rewrite lookup_alter_eq, Ha. cbn [fmap option_fmap option_map].
  js_unfold. cbn [renderer stage set_stage].
  destruct (renderer a) as [r|] eqn:Hr.
  - js_unfold. rewrite lookup_alter_eq, Ha. cbn [fmap option_fmap option_map].
    js_unfold. cbn [app]. rewrite ?app_nil_r. f_equal.
    rewrite (alter_lookup_insert _ _ _ _ Ha).
    rewrite (alter_lookup_insert _ this (set_stage None a)) by apply lookup_insert_eq.
    by rewrite insert_insert_eq.
  - js_unfold. cbn [app]. rewrite ?app_nil_r. f_equal.
    by rewrite (alter_lookup_insert _ _ _ _ Ha).
Qed.
Lemma plugin_calls_app (t1 t2 : list Call) :
  plugin_calls (t1 ++ t2) = plugin_calls t1 ++ plugin_calls t2.
Proof. apply List.filter_app. Qed.

Lemma plugin_calls_fmap (g : ApplicationPlugin → Call) l :
  (∀ p, is_plugin_call (g p) = true) → plugin_calls (g <$> l) = g <$> l.
Proof.
  intros Hg. induction l as [|p l IH]; [done|].
  rewrite fmap_cons. unfold plugin_calls in *. cbn [List.filter].
  by rewrite Hg, IH.
Qed.

Lemma init_plugin_calls this options w l r :
  arrays w !! _plugins w = Some l →
  autoDetectRenderer (merged_options options) = Some r →
  is_Some (instances w !! this) →
  completion (init this options w) = Normal tt ∧
  plugin_calls (trace (init this options w)) =
    (λ p, PluginInit p this (merged_options options)) <$> l.
Proof.
  intros Hl Hr [a Ha]. rewrite (init_run _ _ _ _ _ _ Hr Ha Hl).
  cbn [completion trace]. split; [done|].
  change (plugin_calls (?c :: ?t)) with (plugin_calls t).
  by apply plugin_calls_fmap.
Qed.

Lemma destroy_plugin_calls this options w l :
  arrays w !! _plugins w = Some l →
  plugin_calls (trace (destroy this options w)) =
    (λ p, PluginDestroy p this) <$> reverse l.
Proof.
  intros Hl. rewrite (application_destroy_run _ _ _ _ Hl). cbv zeta.
  destruct (instances w !! this) as [a|];
    [destruct (stage a); [destruct (renderer a)|]|];
    cbn [trace]; rewrite ?plugin_calls_app, plugin_calls_fmap by done;
    cbn [plugin_calls List.filter is_plugin_call]; by rewrite ?app_nil_r.
Qed.

Lemma merged_options_lookup options k :
  merged_options options !! k =
    match default ∅ options !! k with
    | Some v => Some v
    | None => defaultOptions !! k
    end.
Proof.
  unfold merged_options, spread, defaultOptions.
  rewrite !lookup_union, !lookup_empty.
  by destruct (default ∅ options !! k).
Qed.

(** C5 ([init], lines 82 to 86; [destroy], lines 133 to 141).  With the
    plugins [l] registered in that order: an [init] whose backend
    detection resolves calls [init] of each entry of [l] once, in the
    order of [l], each with the same options, and these are all its
    plugin calls; a [destroy] calls [destroy] of each entry once, in the
    reverse order of [l], and these are all its plugin calls. *)
Theorem plugins_init_in_order_destroy_in_reverse this w l :
  arrays w !! _plugins w = Some l →
  (∀ options r,
     autoDetectRenderer (merged_options options) = Some r →
     is_Some (instances w !! this) →
     completion (init this options w) = Normal tt ∧
     plugin_calls (trace (init this options w)) =
       (λ p, PluginInit p this (merged_options options)) <$> l) ∧
  (∀ options,
     plugin_calls (trace (destroy this options w)) =
       (λ p, PluginDestroy p this) <$> reverse l).
Proof.
  intros Hl. split.
  - intros options r Hr Ha. by apply (init_plugin_calls _ _ _ _ r).
  - intros options. by apply destroy_plugin_calls.
Qed.

(** C6 ([destroy], lines 131 to 148).  On a live application (stage and
    renderer present) [destroy] returns normally after making exactly
    these calls, in this order: [destroy] of the plugins in reverse
    registration order, [destroy(options)] of the stage, then
    [destroy(options)] of the renderer; afterwards [this.stage] and
    [this.renderer] are both null. *)
Theorem destroy_plugins_stage_renderer this options w l a c r :
  arrays w !! _plugins w = Some l →
  instances w !! this = Some a →
  stage a = Some c →
  renderer a = Some r →
  completion (destroy this options w) = Normal tt ∧
  trace (destroy this options w) =
    ((λ p, PluginDestroy p this) <$> reverse l) ++
    [ContainerDestroy c (destroy_options options);
     RendererDestroy r (destroy_options options)] ∧
  instances (store (destroy this options w)) !! this =
    Some {| stage := None; renderer := None |}.
Proof.
  intros Hl Ha Hc Hr. rewrite (application_destroy_run _ _ _ _ Hl). cbv zeta.
  rewrite Ha, Hc, Hr. cbn [completion trace store instances write_instances].
  by rewrite lookup_insert_eq.
Qed.

(** C9 ([destroy], lines 131 to 141).  However [destroy] ends, the static
    [Application._plugins] still holds the same array, and that array has
    the elements it had, in the order it had them: what is reversed is a
    new array. *)
Theorem destroy_keeps_registry this options w :
  _plugins (store (destroy this options w)) = _plugins w ∧
  arrays (store (destroy this options w)) !! _plugins w = arrays w !! _plugins w.
Proof.
  destruct (arrays w !! _plugins w) as [l|] eqn:Hl.
  - rewrite (application_destroy_run _ _ _ _ Hl). cbv zeta.
    assert (Hfresh : fresh (dom (arrays w)) ≠ _plugins w).
    { intros Heq. apply (is_fresh (dom (arrays w))). rewrite Heq.
      apply elem_of_dom. by eexists. }
    destruct (instances w !! this) as [a|];
      [destruct (stage a); [destruct (renderer a)|]|];
      cbn [store _plugins arrays write_instances write_arrays];
      by rewrite lookup_insert_ne.
  - by rewrite (destroy_no_registry _ _ _ Hl).
Qed.

(** C10 ([init], lines 70 to 87; [destroy], lines 138 to 141).  Every
    plugin call of [init] is made with [this] bound to the application
    and with the merged options as its argument, and every registered
    plugin gets one; the merged options are the user's options over the
    defaults.  Every plugin call of [destroy] is made with [this] bound
    to the application, and every registered plugin gets one. *)
Theorem plugin_calls_scoped_to_application this w l :
  arrays w !! _plugins w = Some l →
  (∀ options r,
     autoDetectRenderer (merged_options options) = Some r →
     is_Some (instances w !! this) →
     Forall (λ c, ∃ p, c = PluginInit p this (merged_options options))
            (plugin_calls (trace (init this options w))) ∧
     (∀ p, p ∈ l →
           PluginInit p this (merged_options options) ∈ trace (init this options w)) ∧
     (∀ k, merged_options options !! k =
           match default ∅ options !! k with
           | Some v => Some v
           | None => defaultOptions !! k
           end)) ∧
  (∀ options,
     Forall (λ c, ∃ p, c = PluginDestroy p this)
            (plugin_calls (trace (destroy this options w))) ∧
     (∀ p, p ∈ l → PluginDestroy p this ∈ plugin_calls (trace (destroy this options w)))).
Proof.
  intros Hl. split.
  - intros options r Hr Ha.
    destruct (init_plugin_calls _ options _ _ _ Hl Hr Ha) as [_ Hcalls].
    split; [|split].
    + rewrite Hcalls. apply Forall_fmap, Forall_true. intros p. by exists p.
    + intros p Hp.
      assert (Hin : PluginInit p this (merged_options options)
                    ∈ plugin_calls (trace (init this options w))).
      { rewrite Hcalls.
        by apply (list_elem_of_fmap_2 (λ p, PluginInit p this (merged_options options))). }
      apply list_elem_of_In in Hin. apply List.filter_In in Hin as [Hin _].
      by apply list_elem_of_In.
    + apply merged_options_lookup.
  - intros options. rewrite (destroy_plugin_calls _ _ _ _ Hl). split.
    + apply Forall_fmap, Forall_true. intros p. by exists p.
    + intros p Hp. apply (list_elem_of_fmap_2 (λ p, PluginDestroy p this)).
      by apply elem_of_reverse.
Qed.
End Facts.


End ApplicationFacts.

(** ** The application on the example store *)

Module ApplicationRuns.
Import Js Application ApplicationLog ApplicationExamples ApplicationFacts.
#[local] Existing Instance example_detection.

Example merged_example_options :
  merged_options (Some example_options) = example_options.
Proof. vm_compute. reflexivity. Qed.

Example init_log :
  trace (init 1 (Some example_options) example_world) =
    [AutoDetectRenderer example_options;
     PluginInit 11 1 example_options;
     PluginInit 12 1 example_options;
     PluginInit 13 1 example_options].
Proof. vm_compute. reflexivity. Qed.

(** Without a backend [init] is rejected before any plugin is called. *)
Example init_rejected :
  init (H := example_no_backend) 1 None example_world =
    MkRun (Abrupt (Rejection "autoDetectRenderer")) example_world [AutoDetectRenderer ∅].
Proof. vm_compute. reflexivity. Qed.

(** [destroy] before [init]: the plugins and the stage are destroyed, then
    the call on the missing renderer throws. *)
Example destroy_before_init :
  completion (destroy 1 None example_world) = Abrupt (TypeError "renderer is null") ∧
  trace (destroy 1 None example_world) =
    [PluginDestroy 13 1; PluginDestroy 12 1; PluginDestroy 11 1;
     ContainerDestroy 4 (DestroyFlag false)].
Proof. vm_compute. split; reflexivity. Qed.

Lemma plugins_init_in_order_destroy_in_reverse_witness :
  arrays example_world !! _plugins example_world = Some [11; 12; 13] ∧
  plugin_calls (trace (init 1 (Some example_options) example_world)) =
    [PluginInit 11 1 (merged_options (Some example_options));
     PluginInit 12 1 (merged_options (Some example_options));
     PluginInit 13 1 (merged_options (Some example_options))] ∧
  plugin_calls (trace (destroy 1 None example_world)) =
    [PluginDestroy 13 1; PluginDestroy 12 1; PluginDestroy 11 1].
Proof.
  assert (Hl : arrays example_world !! _plugins example_world = Some [11; 12; 13])
    by reflexivity.
  destruct (plugins_init_in_order_destroy_in_reverse 1 example_world [11; 12; 13] Hl)
    as [Hinit Hdestroy].
  split; [exact Hl|]. split.
  - apply (Hinit (Some example_options) 9); [reflexivity | eexists; reflexivity].
  - apply (Hdestroy None).
Defined.

Lemma destroy_plugins_stage_renderer_witness :
  let w := store (init 1 (Some example_options) example_world) in
  completion (destroy 1 None w) = Normal tt ∧
  trace (destroy 1 None w) =
    [PluginDestroy 13 1; PluginDestroy 12 1; PluginDestroy 11 1;
     ContainerDestroy 4 (DestroyFlag false); RendererDestroy 9 (DestroyFlag false)] ∧
  instances (store (destroy 1 None w)) !! 1 = Some {| stage := None; renderer := None |}.
Proof.
  intros w.
  apply (destroy_plugins_stage_renderer 1 None w [11; 12; 13]
           {| stage := Some 4; renderer := Some 9 |} 4 9); reflexivity.
Defined.

Lemma plugin_calls_scoped_to_application_witness :
  (∀ p, p ∈ [11; 12; 13] →
        PluginInit p 1 (merged_options (Some example_options))
          ∈ trace (init 1 (Some example_options) example_world)) ∧
  (∀ p, p ∈ [11; 12; 13] →
        PluginDestroy p 1 ∈ plugin_calls (trace (destroy 1 None example_world))).
Proof.
  destruct (plugin_calls_scoped_to_application 1 example_world [11; 12; 13])
    as [Hinit Hdestroy]; [reflexivity|].
  split.
  - apply (Hinit (Some example_options) 9); [reflexivity | eexists; reflexivity].
  - apply (Hdestroy None).
Defined.
End ApplicationRuns.

(** ** More facts about loops *)

Module JsLoops.
Import Js.

Section Facts.
Context {St Ev : Type}.
Implicit Types (s : St) (body : nat → M St Ev unit).

(** A loop of [a + b] turns is a loop of [a] turns followed by one of [b]
    turns. *)
Lemma for_range_app body a : ∀ b from s,
  for_range from (a + b) body s =
    bind (for_range from a body) (λ _, for_range (from + a) b body) s.
Proof.
  induction a as [|a IH]; intros b from s.
  - cbn [for_range Nat.add]. unfold bind, ret. rewrite Nat.add_0_r.
    by destruct (for_range from b body s).
  - cbn [for_range Nat.add]. unfold bind at 1 2 3.
    destruct (body from s) as [[[]|e] s1 t1]; [|done].
    rewrite IH. unfold bind. replace (S from + a) with (from + S a) by lia.
    destruct (for_range (S from) a body s1) as [[[]|e] s2 t2]; [|done].
    destruct (for_range (from + S a) b body s2) as [c s3 t3].
    by rewrite app_assoc.
Qed.

(** A change of the store that every turn of a loop commutes with commutes
    with the loop. *)
Lemma for_range_commute (g : St → St) body :
  (∀ i s, body i (g s) =
          MkRun (completion (body i s)) (g (store (body i s))) (trace (body i s))) →
  ∀ count from s,
    for_range from count body (g s) =
      MkRun (completion (for_range from count body s))
            (g (store (for_range from count body s)))
            (trace (for_range from count body s)).
Proof.
  intros Hbody. induction count as [|k IH]; intros from s.
  - done.
  - cbn [for_range]. unfold bind. rewrite Hbody.
    destruct (body from s) as [[[]|e] s1 t1]; cbn [completion store trace]; [|done].
    rewrite IH. by destruct (for_range (S from) k body s1).
Qed.
End Facts.
End JsLoops.

(** ** More facts about [GpuGraphicsAdaptor] *)

Module GpuGraphicsAdaptorMore.
Import Js JsFacts JsLoops GpuGraphicsAdaptor GpuGraphicsAdaptorLog GpuGraphicsAdaptorFacts.

Section Facts.
Context `{Collaborators}.
Implicit Types (w : World) (f : Frame) (b : Batch) (s : Shader) (sl : ShaderSlot).

Ltac js_unfold :=
  cbv [execute_batch the_batch update_shader the_shader update_batch call_system
       bind get modify emit ret throw];
  cbn [completion store trace fst snd].

(** One turn of the loop, in full: it throws before doing anything, or it
    writes slot 1 of the shader's groups, populates the batch if need be,
    binds and draws. *)
Lemma execute_batch_step sl batches i w :
  (∃ e, execute_batch sl batches i w = MkRun (Abrupt e) w [] ∧
        (batches !! i = None ∨ (∃ r, batches !! i = Some r ∧ heap w !! r = None) ∨
         read_shader sl w = None)) ∨
  (∃ r b s b' x pre,
     batches !! i = Some r ∧ heap w !! r = Some b ∧ read_shader sl w = Some s ∧
     execute_batch sl batches i w =
       MkRun (Normal tt)
         (write_systems x
            (write_heap (<[r := b']> (heap w))
               (write_shader sl (Some (set_group 1 (batch_bindGroup b) s)) w)))
         (pre ++ [SetBindGroup 1 (batch_bindGroup b') (gpuProgram s);
                  DrawIndexed (batch_size b) 1 (batch_start b)]) ∧
     batch_start b' = batch_start b ∧ batch_size b' = batch_size b ∧
     batch_textures b' = batch_textures b ∧
     is_Some (batch_gpuBindGroup b') ∧
     draw_calls pre = [] ∧ bound_at 1 pre = [] ∧
     (is_Some (batch_gpuBindGroup b) → b' = b ∧ pre = [] ∧ x = systems w)).
Proof.
  destruct (batches !! i) as [r|] eqn:Hi;
    [destruct (heap w !! r) as [b|] eqn:Hr;
     [destruct (read_shader sl w) as [s|] eqn:Hs|]|].
  - right. exists r, b, s. destruct (batch_gpuBindGroup b) as [g|] eqn:Hg.
    + exists b, (systems w), []. split; [done|]. split; [done|]. split; [done|].
      split.
      { rewrite (execute_batch_cached _ _ _ _ _ _ _ _ Hi Hr Hg Hs).
        f_equal. rewrite (insert_id _ _ _ Hr). by destruct w, sl. }
      rewrite Hg. by repeat split.
    + destruct (execute_batch_fresh _ _ _ _ _ _ _ Hi Hr Hg Hs) as (bg & gbg & x & Hrun).
      exists (set_gpuBindGroup (Some gbg) (set_bindGroup (Some bg) b)), x,
        [GetTextureBatchBindGroup (textures (batch_textures b)) (count (batch_textures b));
         GetBindGroup bg (gpuProgram s) 1].
      split; [done|]. split; [done|]. split; [done|]. split; [by rewrite Hrun|].
      split; [done|]. split; [done|]. split; [done|]. split; [by eexists|].
      split; [done|]. split; [done|]. by intros [? ?].
  - left. eexists. split; [|by right; right].
    js_unfold. rewrite Hi, Hr. cbn [completion store trace]. by rewrite Hs.
  - left. eexists. split; [|right; left; by exists r].
    js_unfold. by rewrite Hi, Hr.
  - left. eexists. split; [|by left].
    js_unfold. by rewrite Hi.
Qed.
(** The store a completed turn leaves, field by field. *)
Lemma turn_store sl o h x w :
  let w' := write_systems x (write_heap h (write_shader sl o w)) in
  pipe_state w' = pipe_state w ∧ heap w' = h ∧ systems w' = x ∧
  read_shader sl w' = o ∧
  (sl = CustomShader → _shader w' = _shader w) ∧
  (sl = OwnShader → customShader w' = customShader w).
Proof. by destruct sl. Qed.

(** What the loop keeps, however it ends: the state of the pipe, the shader
    it does not draw with, the set of batch objects and their [start], [size]
    and [textures], and of the shader it draws with everything but slot 1 of
    its groups. *)
Lemma loop_frame sl batches count from w :
  let w' := store (for_range from count (execute_batch sl batches) w) in
  pipe_state w' = pipe_state w ∧
  (sl = CustomShader → _shader w' = _shader w) ∧
  (sl = OwnShader → customShader w' = customShader w) ∧
  (∀ r, heap w !! r = None → heap w' !! r = None) ∧
  (∀ r b, heap w !! r = Some b →
     ∃ b', heap w' !! r = Some b' ∧ batch_start b' = batch_start b ∧
           batch_size b' = batch_size b ∧ batch_textures b' = batch_textures b) ∧
  (read_shader sl w = None → read_shader sl w' = None) ∧
  (∀ s, read_shader sl w = Some s →
     ∃ s', read_shader sl w' = Some s' ∧ gpuProgram s' = gpuProgram s ∧
           localUniforms s' = localUniforms s ∧
           ∀ k, k ≠ 1 → groups s' !! k = groups s !! k).
Proof.
  apply (for_range_invariant
    (λ w', pipe_state w' = pipe_state w ∧
      (sl = CustomShader → _shader w' = _shader w) ∧
      (sl = OwnShader → customShader w' = customShader w) ∧
      (∀ r, heap w !! r = None → heap w' !! r = None) ∧
      (∀ r b, heap w !! r = Some b →
         ∃ b', heap w' !! r = Some b' ∧ batch_start b' = batch_start b ∧
               batch_size b' = batch_size b ∧ batch_textures b' = batch_textures b) ∧
      (read_shader sl w = None → read_shader sl w' = None) ∧
      (∀ s, read_shader sl w = Some s →
         ∃ s', read_shader sl w' = Some s' ∧ gpuProgram s' = gpuProgram s ∧
               localUniforms s' = localUniforms s ∧
               ∀ k, k ≠ 1 → groups s' !! k = groups s !! k))
    (λ _, True) (execute_batch sl batches)).
  - intros i w1 (Hp & Hown & Hcus & Hnone & Hsome & Hsn & Hss).
    split; [|by apply Forall_true].
    destruct (execute_batch_step sl batches i w1)
      as [(e & -> & _)|(r & b & s & b' & x & pre & Hi & Hr & Hs & -> & Hst & Hsz & Htx & _)].
    { cbn [store]. by repeat split. }
    cbn [store].
    destruct (turn_store sl (Some (set_group 1 (batch_bindGroup b) s))
                (<[r := b']> (heap w1)) x w1) as (Ep & Eh & _ & Es & Eown & Ecus).
    rewrite Ep, Eh, Es. split; [done|].
    split; [intros Hsl; by rewrite (Eown Hsl), (Hown Hsl)|].
    split; [intros Hsl; by rewrite (Ecus Hsl), (Hcus Hsl)|].
    split; [|split; [|split]].
    + intros r0 Hr0. destruct (decide (r = r0)) as [<-|Hne].
      * rewrite (Hnone _ Hr0) in Hr. discriminate.
      * rewrite lookup_insert_ne by done. by apply Hnone.
    + intros r0 b0 Hr0. destruct (Hsome _ _ Hr0) as (b1 & Hb1 & E1 & E2 & E3).
      destruct (decide (r = r0)) as [<-|Hne].
      * rewrite lookup_insert_eq. exists b'. rewrite Hr in Hb1. injection Hb1 as ->.
        split; [done|]. by rewrite Hst, Hsz, Htx.
      * rewrite lookup_insert_ne by done. by exists b1.
    + intros Hn. rewrite (Hsn Hn) in Hs. discriminate.
    + intros s0 Hs0. destruct (Hss _ Hs0) as (s1 & Hs1 & Eg & El & Ek).
      rewrite Hs in Hs1. injection Hs1 as ->.
      eexists. split; [done|]. cbn [gpuProgram localUniforms groups set_group].
      split; [done|]. split; [done|].
      intros k Hk. rewrite lookup_insert_ne by done. by apply Ek.
  - repeat split; try done.
    + intros r b Hr. by exists b.
    + intros s Hs. by exists s.
Qed.
(** A turn of the loop that draws with the custom shader does not look at
    the adaptor's own shader. *)
Lemma execute_batch_ignores_own batches i o w :
  let R := execute_batch CustomShader batches i w in
  execute_batch CustomShader batches i (write_shader OwnShader o w) =
    MkRun (completion R) (write_shader OwnShader o (store R)) (trace R).
Proof.
  destruct w as [own cus st h x]. cbv zeta. js_unfold.
  cbn [write_shader read_shader heap customShader _shader pipe_state systems
       write_heap write_systems].
  destruct (batches !! i) as [r|]; [|done].
  destruct (h !! r) as [b|]; [|done].
  cbn [completion store trace write_shader read_shader heap customShader _shader pipe_state
       systems write_heap write_systems fst snd].
  destruct cus as [s|]; [|done].
  cbn [completion store trace write_shader read_shader heap customShader _shader pipe_state
       systems write_heap write_systems fst snd].
  destruct (batch_gpuBindGroup b).
  - cbn [completion store trace write_shader read_shader heap customShader _shader pipe_state
       systems write_heap write_systems fst snd].
    by destruct (h !! r).
  - destruct (getTextureBatchBindGroup _ _ _) as [bg x1].
    cbn [completion store trace write_shader read_shader heap customShader _shader pipe_state
       systems write_heap write_systems fst snd].
    destruct (bindGroup_getBindGroup _ _ _ _) as [gbg x2].
    cbn [completion store trace write_shader read_shader heap customShader _shader pipe_state
       systems write_heap write_systems fst snd].
    by destruct (alter _ r _ !! r).
Qed.
(** The store the loop of [execute] starts from. *)
Lemma setup_store f w s :
  read_shader (effective_shader w) w = Some s →
  let sl := effective_shader w in
  let c := color32BitToUniform (layerColor f) (uColor (localUniforms s)) 0 in
  let s' := set_uColor c (set_uTransformMatrix (layerTransform f) s) in
  let lx := uniformBatch_getUniformBindGroup (layerTransform f) c true (systems w) in
  let w1 := write_systems lx.2
              (write_shader sl (Some s') (write_state {| blendMode := layerBlendMode f |} w)) in
  pipe_state w1 = {| blendMode := layerBlendMode f |} ∧
  heap w1 = heap w ∧
  read_shader sl w1 = Some s' ∧
  effective_shader w1 = sl ∧
  (sl = CustomShader → _shader w1 = _shader w) ∧
  (sl = OwnShader → customShader w1 = customShader w).
Proof.
  intros Hs. cbv zeta. unfold effective_shader in *.
  destruct w as [own cus st h x]. cbn [customShader] in *.
  by destruct cus.
Qed.

(** X1 ([execute], lines 109 to 123).  Whatever the frame and however the
    call ends, [execute] neither adds nor removes a batch object, and leaves
    the [start], [size] and [textures] of every batch object as they were:
    the only properties of a batch it writes are [bindGroup] and
    [gpuBindGroup]. *)
Theorem execute_keeps_batch_geometry f w :
  (∀ r, heap w !! r = None → heap (store (execute f w)) !! r = None) ∧
  (∀ r b, heap w !! r = Some b →
     ∃ b', heap (store (execute f w)) !! r = Some b' ∧
           batch_start b' = batch_start b ∧ batch_size b' = batch_size b ∧
           batch_textures b' = batch_textures b).
Proof.
  destruct (decide (gpuContext_batches f = [])) as [Hnil|Hne].
  { rewrite (execute_early _ _ Hnil). cbn [store]. split; [done|].
    intros r b Hr. by exists b. }
  destruct (read_shader (effective_shader w) w) as [s|] eqn:Hs.
  - rewrite (execute_setup _ _ _ Hne Hs). cbv zeta. cbn [store].
    destruct (setup_store f w s Hs) as (_ & Hh & _).
    match goal with |- context [for_range 0 _ _ ?W] => set (w1 := W) in * end.
    destruct (loop_frame (effective_shader w) (instructions f) (instructionSize f) 0 w1)
      as (_ & _ & _ & Hnone & Hsome & _).
    rewrite Hh in Hnone, Hsome. by split.
  - rewrite (execute_null_shader _ _ Hne Hs). cbn [store heap write_state].
    split; [done|]. intros r b Hr. by exists b.
Qed.

(** X2 ([execute], lines 73 to 83 and 113).  A call that gets past the early
    return with a shader leaves, however the loop ends, the blend mode of
    the pipe set to the renderable's layer blend mode, and in the shader it
    drew with: [uTransformMatrix] set to the layer transform, [uColor] set to
    what [color32BitToUniform] made of the layer colour, the same program,
    and the same groups at every slot but 1. *)
Theorem execute_writes_layer_state f w s :
  gpuContext_batches f ≠ [] →
  read_shader (effective_shader w) w = Some s →
  pipe_state (store (execute f w)) = {| blendMode := layerBlendMode f |} ∧
  ∃ s', read_shader (effective_shader w) (store (execute f w)) = Some s' ∧
        gpuProgram s' = gpuProgram s ∧
        uTransformMatrix (localUniforms s') = layerTransform f ∧
        uColor (localUniforms s') =
          color32BitToUniform (layerColor f) (uColor (localUniforms s)) 0 ∧
        ∀ k, k ≠ 1 → groups s' !! k = groups s !! k.
Proof.
  intros Hne Hs. rewrite (execute_setup _ _ _ Hne Hs). cbv zeta. cbn [store].
  destruct (setup_store f w s Hs) as (Hp & _ & Hs1 & _).
  match goal with |- context [for_range 0 _ _ ?W] => set (w1 := W) in * end.
  destruct (loop_frame (effective_shader w) (instructions f) (instructionSize f) 0 w1)
    as (Hp' & _ & _ & _ & _ & _ & Hshader).
  split; [by rewrite Hp'|].
  destruct (Hshader _ Hs1) as (s' & Hs' & Eg & El & Ek).
  exists s'. split; [done|]. rewrite Eg, El. by repeat split.
Qed.

(** X3 ([execute], line 61).  [execute] writes one shader only: for a context
    with a custom shader the adaptor's own shader is left as it was, and for
    a context without one the context still has none afterwards; this holds
    however the call ends. *)
Theorem execute_writes_one_shader f w :
  (is_Some (customShader w) → _shader (store (execute f w)) = _shader w) ∧
  (customShader w = None → customShader (store (execute f w)) = None).
Proof.
  assert (Hsl : (is_Some (customShader w) → effective_shader w = CustomShader) ∧
                (customShader w = None → effective_shader w = OwnShader)).
  { unfold effective_shader. destruct (customShader w); split; try done.
    all: try by intros []. }
  destruct Hsl as [Hcus Hown].
  destruct (decide (gpuContext_batches f = [])) as [Hnil|Hne].
  { by rewrite (execute_early _ _ Hnil). }
  destruct (read_shader (effective_shader w) w) as [s|] eqn:Hs.
  - rewrite (execute_setup _ _ _ Hne Hs). cbv zeta. cbn [store].
    destruct (setup_store f w s Hs) as (_ & _ & _ & _ & E1 & E2).
    match goal with |- context [for_range 0 _ _ ?W] => set (w1 := W) in * end.
    destruct (loop_frame (effective_shader w) (instructions f) (instructionSize f) 0 w1)
      as (_ & L1 & L2 & _).
    split.
    + intros Hc. rewrite (L1 (Hcus Hc)). apply E1, Hcus, Hc.
    + intros Hc. rewrite (L2 (Hown Hc)), (E2 (Hown Hc)). done.
  - by rewrite (execute_null_shader _ _ Hne Hs).
Qed.

(** X4 ([execute], line 61).  For a context with a custom shader [execute]
    never reads [this._shader]: with any other value there, null included,
    the call ends the same way, makes the same calls and writes the same
    things. *)
Theorem execute_custom_shader_ignores_own f w cs o :
  customShader w = Some cs →
  execute f (write_shader OwnShader o w) =
    MkRun (completion (execute f w))
          (write_shader OwnShader o (store (execute f w)))
          (trace (execute f w)).
Proof.
  intros Hc.
  destruct (decide (gpuContext_batches f = [])) as [Hnil|Hne].
  { by rewrite !(execute_early _ _ Hnil). }
  assert (Hsl : effective_shader w = CustomShader).
  { unfold effective_shader. by rewrite Hc. }
  assert (Hs : read_shader (effective_shader w) w = Some cs) by by rewrite Hsl.
  assert (Hs' : read_shader (effective_shader (write_shader OwnShader o w))
                  (write_shader OwnShader o w) = Some cs).
  { unfold effective_shader, read_shader, write_shader. cbn [customShader]. by rewrite Hc. }
  rewrite (execute_setup _ _ _ Hne Hs), (execute_setup _ _ _ Hne Hs'). cbv zeta.
  cbn [completion store trace].
  replace (effective_shader (write_shader OwnShader o w)) with CustomShader
    by (unfold effective_shader, write_shader; cbn [customShader]; by rewrite Hc).
  rewrite Hsl.
  match goal with |- context [for_range 0 _ _ ?W] =>
    replace W with
      (write_shader OwnShader o
         (write_systems
            (uniformBatch_getUniformBindGroup (layerTransform f)
               (color32BitToUniform (layerColor f) (uColor (localUniforms cs)) 0) true
               (systems w)).2
            (write_shader CustomShader
               (Some (set_uColor
                        (color32BitToUniform (layerColor f) (uColor (localUniforms cs)) 0)
                        (set_uTransformMatrix (layerTransform f) cs)))
               (write_state {| blendMode := layerBlendMode f |} w))))
      by by destruct w
  end.
  rewrite (for_range_commute (write_shader OwnShader o)
             (execute_batch CustomShader (instructions f))
             (λ i w0, execute_batch_ignores_own (instructions f) i o w0)).
  done.
Qed.
(** X5 ([destroy], lines 131 to 135).  [destroy] returns exactly when the
    adaptor has a shader; it then calls [destroy(true)] on that shader and
    nothing else, nulls [this._shader] and leaves everything else as it was.
    Called again, or on an adaptor without a shader, it throws a [TypeError]
    without making any call or writing anything. *)
Theorem destroy_once w :
  (∀ s, _shader w = Some s →
     completion (destroy w) = Normal tt ∧
     trace (destroy w) = [ShaderDestroy (gpuProgram s) true] ∧
     _shader (store (destroy w)) = None ∧
     customShader (store (destroy w)) = customShader w ∧
     pipe_state (store (destroy w)) = pipe_state w ∧
     heap (store (destroy w)) = heap w ∧
     systems (store (destroy w)) = systems w ∧
     destroy (store (destroy w)) =
       MkRun (Abrupt (TypeError "shader is null")) (store (destroy w)) []) ∧
  (_shader w = None →
     destroy w = MkRun (Abrupt (TypeError "shader is null")) w []).
Proof.
  assert (Hnull : ∀ w0, _shader w0 = None →
            destroy w0 = MkRun (Abrupt (TypeError "shader is null")) w0 []).
  { intros w0 Hn. cbv [destroy the_shader bind get ret emit modify read_shader throw].
    by rewrite Hn. }
  split; [|apply Hnull].
  intros s Hs. rewrite (adaptor_destroy_run _ _ Hs). cbn [completion trace store].
  repeat split; by apply Hnull.
Qed.

(** One turn of the loop writes no batch but its own. *)
Lemma loop_touches_listed sl batches count : ∀ from w r,
  r ∉ take count (drop from batches) →
  heap (store (for_range from count (execute_batch sl batches) w)) !! r = heap w !! r.
Proof.
  induction count as [|k IH]; intros from w r Hr; [done|].
  cbn [for_range]. unfold bind.
  destruct (execute_batch_step sl batches from w)
    as [(e & -> & _)|(r0 & b & s & b' & x & pre & Hi & Hr0 & Hs & -> & _)]; [done|].
  rewrite (drop_S _ _ _ Hi) in Hr. cbn [take] in Hr.
  apply not_elem_of_cons in Hr as [Hne Hr].
  specialize (IH (S from)
    (write_systems x
       (write_heap (<[r0 := b']> (heap w))
          (write_shader sl (Some (set_group 1 (batch_bindGroup b) s)) w))) r Hr).
  destruct (for_range (S from) k _ _) as [c w' t]. cbn [store] in *.
  rewrite IH. cbn [heap write_systems write_heap]. by rewrite lookup_insert_ne.
Qed.

(** The loop over entries that all exist binds, for each entry, the bind
    group its batch object has when the loop is over. *)
Lemma loop_binds sl batches count : ∀ from w s,
  read_shader sl w = Some s →
  (∀ i, from ≤ i < from + count →
     ∃ r, batches !! i = Some r ∧ is_Some (heap w !! r)) →
  let R := for_range from count (execute_batch sl batches) w in
  Some <$> bound_at 1 (trace R) =
    (λ r, batch_bindGroup <$> heap (store R) !! r) <$> take count (drop from batches).
Proof.
  induction count as [|k IH]; intros from w s Hs Hvalid R; [done|].
  destruct (Hvalid from ltac:(lia)) as (r & Hi & [b Hr]).
  destruct (execute_batch_valid _ _ _ _ _ _ _ Hi Hr Hs)
    as (b' & x & pre & Hrun & _ & Hpop & _ & Hpre & _).
  subst R. cbn [for_range]. unfold bind. rewrite Hrun.
  set (w1 := write_systems x _).
  assert (Hh : heap w1 = <[r := b']> (heap w)) by done.
  specialize (IH (S from) w1 (set_group 1 (batch_bindGroup b) s)).
  pose proof (loop_keeps sl batches k (S from) w1) as [Hkeep _].
  destruct (for_range (S from) k _ w1) as [c w' t]. cbn [store trace] in *.
  rewrite !bound_at_app, Hpre. change (bound_at 1 [_; _]) with [batch_bindGroup b'].
  rewrite (drop_S _ _ _ Hi). cbn [take app]. rewrite !fmap_cons. f_equal.
  - rewrite (Hkeep r b'); [done | by rewrite Hh, lookup_insert_eq | done].
  - apply IH.
    + unfold w1. by destruct sl.
    + intros i Hrange. destruct (Hvalid i ltac:(lia)) as (r' & Hi' & Hr').
      exists r'. split; [done|]. rewrite Hh.
      destruct (decide (r = r')) as [<-|Hne];
        [by rewrite lookup_insert_eq | by rewrite lookup_insert_ne].
Qed.
Lemma all_entries_valid f w :
  Forall (λ r, is_Some (heap w !! r)) (instructions f) →
  ∀ i, i < length (instructions f) →
    ∃ r, instructions f !! i = Some r ∧ is_Some (heap w !! r).
Proof.
  intros Hall i Hi.
  destruct (lookup_lt_is_Some_2 (instructions f) i Hi) as [r Hr].
  exists r. split; [done|]. by apply (proj1 (Forall_lookup _ _) Hall i).
Qed.

(** X6 ([execute], lines 109 to 113).  With an [instructionSize] larger than
    the instruction array, [execute] draws every batch of the array, in
    order, and then throws a [TypeError] on the entry that is not there. *)
Theorem execute_past_end_of_instructions f w :
  gpuContext_batches f ≠ [] →
  is_Some (read_shader (effective_shader w) w) →
  length (instructions f) < instructionSize f →
  Forall (λ r, is_Some (heap w !! r)) (instructions f) →
  completion (execute f w) = Abrupt (TypeError "batch is undefined") ∧
  length (draw_calls (trace (execute f w))) = length (instructions f) ∧
  ∀ i r b,
    instructions f !! i = Some r → heap w !! r = Some b →
    draw_calls (trace (execute f w)) !! i = Some (batch_size b, 1%Z, batch_start b).
Proof.
  intros Hne [s Hs] Hlen Hall.
  rewrite (execute_setup _ _ _ Hne Hs). cbv zeta. cbn [completion trace].
  destruct (setup_store f w s Hs) as (_ & Hh & Hs1 & _).
  match goal with |- context [for_range 0 _ _ ?W] => set (w1 := W) in * end.
  replace (instructionSize f)
    with (length (instructions f) + S (instructionSize f - S (length (instructions f))))
    by lia.
  rewrite for_range_app. unfold bind.
  destruct (loop_draws (effective_shader w) (instructions f) (length (instructions f)) 0 w1 _ Hs1)
    as (w' & t & -> & Hdraws & _).
  { intros i Hi. rewrite Hh. apply all_entries_valid; [done | lia]. }
  cbn [for_range Nat.add]. unfold bind.
  assert (Hmiss : execute_batch (effective_shader w) (instructions f)
                    (length (instructions f)) w' =
                  MkRun (Abrupt (TypeError "batch is undefined")) w' []).
  { js_unfold. by rewrite (proj2 (lookup_ge_None _ _)). }
  rewrite Hmiss. cbn [completion trace]. rewrite app_nil_r, draw_calls_app.
  change (draw_calls [_; _; _; _; _]) with (@nil (Z * Z * Z)). cbn [app].
  rewrite drop_0, take_ge, Hh in Hdraws by done.
  split; [done|]. split.
  - by rewrite (length_of_fmap_Some _ _ _ Hdraws).
  - intros i r b Hr Hb. apply (lookup_of_fmap_Some _ _ _ i r _ Hdraws); [done|].
    by rewrite Hb.
Qed.

(** X7 ([execute], lines 109 to 128).  After a complete pass over a frame, a
    second pass over the same instructions (whatever its layer values)
    completes, issues the same draw calls, binds at slot 1 the very bind
    groups the first pass bound, and writes no batch object. *)
Theorem execute_twice_same_draws f f2 w :
  gpuContext_batches f ≠ [] →
  is_Some (read_shader (effective_shader w) w) →
  instructionSize f ≤ length (instructions f) →
  Forall (λ r, is_Some (heap w !! r)) (frame_batches f) →
  gpuContext_batches f2 ≠ [] →
  instructions f2 = instructions f →
  instructionSize f2 = instructionSize f →
  let w1 := store (execute f w) in
  completion (execute f2 w1) = Normal tt ∧
  draw_calls (trace (execute f2 w1)) = draw_calls (trace (execute f w)) ∧
  bound_at 1 (trace (execute f2 w1)) = bound_at 1 (trace (execute f w)) ∧
  heap (store (execute f2 w1)) = heap w1.
Proof.
  intros Hne [s Hs] Hlen Hall Hne2 Hi2 Hn2. cbv zeta.
  assert (Hvalid := valid_entries f w Hlen Hall).
  rewrite (execute_setup _ _ _ Hne Hs). cbv zeta. cbn [store trace].
  destruct (setup_store f w s Hs) as (_ & Hh & Hs1 & _ & _ & Ecus).
  match goal with |- context [for_range 0 _ _ ?W] => set (wa := W) in * end.
  assert (Hvalid1 : ∀ i, 0 ≤ i < 0 + instructionSize f →
            ∃ r, instructions f !! i = Some r ∧ is_Some (heap wa !! r)).
  { intros i Hi. rewrite Hh. apply Hvalid. lia. }
  pose proof (loop_binds (effective_shader w) (instructions f) (instructionSize f) 0 wa _
                Hs1 Hvalid1) as Hbinds.
  pose proof (loop_frame (effective_shader w) (instructions f) (instructionSize f) 0 wa)
    as (_ & _ & Lcus & _).
  destruct (loop_draws (effective_shader w) (instructions f) (instructionSize f) 0 wa _
              Hs1 Hvalid1) as (w' & t & Hloop & Hdraws & Hgeom & [s' Hs'] & Hpop).
  rewrite Hloop in *. cbv zeta in Hbinds, Lcus. cbn [store trace] in *.
  rewrite drop_0 in Hbinds, Hdraws, Hpop.
  (* the second pass draws with the same shader object *)
  assert (Hsl' : effective_shader w' = effective_shader w).
  { destruct (customShader w) as [c0|] eqn:Hc.
    - assert (E : effective_shader w = CustomShader)
        by (unfold effective_shader; by rewrite Hc).
      rewrite E in Hs' |- *. cbn [read_shader] in Hs'.
      unfold effective_shader. by rewrite Hs'.
    - assert (E : effective_shader w = OwnShader)
        by (unfold effective_shader; by rewrite Hc).
      rewrite E. unfold effective_shader. by rewrite (Lcus E), (Ecus E). }
  assert (Hs2 : read_shader (effective_shader w') w' = Some s') by by rewrite Hsl'.
  rewrite (execute_setup _ _ _ Hne2 Hs2). cbv zeta. cbn [completion store trace].
  destruct (setup_store f2 w' s' Hs2) as (_ & Hh2 & Hs3 & _).
  match goal with |- context [for_range 0 _ _ ?W] => set (wb := W) in * end.
  rewrite Hi2, Hn2, Hsl' in *.
  assert (Hvalid2 : ∀ i, 0 ≤ i < 0 + instructionSize f →
            ∃ r, instructions f !! i = Some r ∧ is_Some (heap wb !! r)).
  { intros i Hi. destruct (Hvalid1 i Hi) as (r & Hr & _). exists r. split; [done|].
    rewrite Hh2. assert (Hin : r ∈ take (instructionSize f) (instructions f)).
    { apply list_elem_of_lookup. exists i. rewrite lookup_take_lt by lia. done. }
    destruct (proj1 (Forall_forall _ _) Hpop r Hin) as (b & Hb & _). by rewrite Hb. }
  destruct (loop_cached (effective_shader w) (instructions f) (instructionSize f) 0 wb _ Hs3)
    as (Hheap2 & _ & _ & Hbinds2).
  { by rewrite drop_0, Hh2. }
  destruct (loop_draws (effective_shader w) (instructions f) (instructionSize f) 0 wb _
              Hs3 Hvalid2) as (w'' & t2 & Hloop2 & Hdraws2 & _).
  rewrite Hloop2 in *. cbn [completion store trace] in *.
  rewrite drop_0 in Hbinds2, Hdraws2.
  rewrite !draw_calls_app, !bound_at_app.
  change (draw_calls [_; _; _; _; _]) with (@nil (Z * Z * Z)).
  change (bound_at 1 [_; _; _; _; _]) with (@nil (option BindGroup)). cbn [app].
  split; [done|]. split; [|split].
  - apply (inj (fmap Some)). rewrite Hdraws, Hdraws2.
    apply list_fmap_ext. intros ? r _. rewrite Hh2. apply Hgeom.
  - apply (inj (fmap Some)). rewrite Hbinds, Hbinds2.
    apply list_fmap_ext. intros ? r _. by rewrite Hh2.
  - by rewrite Hheap2, Hh2.
Qed.
(** X8 ([execute], lines 113 to 123).  [shader.groups[1]] is assigned before
    the bind group of the batch is constructed.  So after a complete pass it
    holds the [bindGroup] that the last valid batch had when the pass began
    (null for a batch drawn for the first time), provided that batch was
    populated already or is not listed earlier in the frame. *)
Theorem execute_leaves_previous_group f w s r b :
  gpuContext_batches f ≠ [] →
  read_shader (effective_shader w) w = Some s →
  instructionSize f ≤ length (instructions f) →
  Forall (λ r, is_Some (heap w !! r)) (frame_batches f) →
  0 < instructionSize f →
  instructions f !! (instructionSize f - 1) = Some r →
  heap w !! r = Some b →
  is_Some (batch_gpuBindGroup b) ∨ r ∉ take (instructionSize f - 1) (instructions f) →
  ∃ s', read_shader (effective_shader w) (store (execute f w)) = Some s' ∧
        groups s' !! 1 = Some (batch_bindGroup b).
Proof.
  intros Hne Hs Hlen Hall Hpos Hlast Hb Hcase.
  assert (Hvalid := valid_entries f w Hlen Hall).
  rewrite (execute_setup _ _ _ Hne Hs). cbv zeta. cbn [store].
  destruct (setup_store f w s Hs) as (_ & Hh & Hs1 & _).
  match goal with |- context [for_range 0 _ _ ?W] => set (wa := W) in * end.
  set (k := instructionSize f - 1) in *.
  replace (instructionSize f) with (k + 1) in * by lia.
  rewrite for_range_app. unfold bind.
  destruct (loop_draws (effective_shader w) (instructions f) k 0 wa _ Hs1)
    as (w' & t & Hloop & _ & _ & [s' Hs'] & _).
  { intros i Hi. rewrite Hh. apply Hvalid. lia. }
  assert (Hb' : heap w' !! r = Some b).
  { destruct Hcase as [Hpop|Hnot].
    - pose proof (loop_keeps (effective_shader w) (instructions f) k 0 wa) as [Hkeep _].
      rewrite Hloop in Hkeep. apply Hkeep; [by rewrite Hh | done].
    - pose proof (loop_touches_listed (effective_shader w) (instructions f) k 0 wa r) as Ht.
      rewrite Hloop, drop_0, Hh in Ht. cbn [store] in Ht. rewrite Ht; done. }
  rewrite Hloop. cbn [for_range Nat.add]. unfold bind, ret.
  destruct (execute_batch_valid _ _ _ _ _ _ _ Hlast Hb' Hs') as (b' & x & pre & -> & _).
  cbn [store].
  destruct (turn_store (effective_shader w) (Some (set_group 1 (batch_bindGroup b) s'))
              (<[r := b']> (heap w')) x w') as (_ & _ & _ & Es & _).
  eexists. split; [exact Es|]. cbn [groups set_group]. apply lookup_insert_eq.
Qed.
End Facts.
End GpuGraphicsAdaptorMore.

(** ** More of the adaptor on the example stores *)

Module GpuGraphicsAdaptorMoreRuns.
Import Js GpuGraphicsAdaptor GpuGraphicsAdaptorLog GpuGraphicsAdaptorExamples
       GpuGraphicsAdaptorMore.
#[local] Existing Instance example_renderer.

Lemma execute_keeps_batch_geometry_witness :
  heap (store (execute example_frame example_world)) !! 7 = None ∧
  ∃ b', heap (store (execute example_frame example_world)) !! 1 = Some b' ∧
        batch_start b' = 6%Z ∧ batch_size b' = 12%Z ∧
        batch_textures b' = {| textures := [11]; count := 1 |}.
Proof.
  destruct (execute_keeps_batch_geometry example_frame example_world) as [Hnone Hsome].
  split.
  - apply Hnone. vm_compute. reflexivity.
  - apply (Hsome 1 (example_batch 6 12 11)). vm_compute. reflexivity.
Defined.

Lemma execute_writes_layer_state_witness :
  pipe_state (store (execute example_frame example_world)) = {| blendMode := 1 |} ∧
  ∃ s', read_shader OwnShader (store (execute example_frame example_world)) = Some s' ∧
        gpuProgram s' = 7 ∧
        uTransformMatrix (localUniforms s') = 5 ∧
        uColor (localUniforms s') = [153; 102; 51; 255]%Z ∧
        ∀ k, k ≠ 1 → groups s' !! k = groups (example_shader 7) !! k.
Proof.
  apply (execute_writes_layer_state example_frame example_world (example_shader 7)).
  - discriminate.
  - reflexivity.
Defined.

Lemma execute_writes_one_shader_witness :
  _shader (store (execute example_frame example_world_custom)) =
    Some (example_shader 7) ∧
  customShader (store (execute example_frame example_world)) = None.
Proof.
  split.
  - apply (execute_writes_one_shader example_frame example_world_custom).
    eexists. reflexivity.
  - apply (execute_writes_one_shader example_frame example_world). reflexivity.
Defined.

(** Drawing a context that has its own shader with a destroyed adaptor. *)
Lemma execute_custom_shader_ignores_own_witness :
  execute example_frame (write_shader OwnShader None example_world_custom) =
    MkRun (completion (execute example_frame example_world_custom))
          (write_shader OwnShader None (store (execute example_frame example_world_custom)))
          (trace (execute example_frame example_world_custom)).
Proof.
  apply (execute_custom_shader_ignores_own example_frame example_world_custom
           (example_shader 8) None).
  reflexivity.
Defined.

Lemma destroy_once_witness :
  trace (destroy example_world) = [ShaderDestroy 7 true] ∧
  destroy (store (destroy example_world)) =
    MkRun (Abrupt (TypeError "shader is null")) (store (destroy example_world)) [].
Proof.
  destruct (destroy_once example_world) as [Hlive _].
  destruct (Hlive (example_shader 7) eq_refl) as (_ & Ht & _ & _ & _ & _ & _ & Hagain).
  split; [exact Ht | exact Hagain].
Defined.

Lemma execute_past_end_of_instructions_witness :
  completion (execute example_overlong_frame example_world) =
    Abrupt (TypeError "batch is undefined") ∧
  length (draw_calls (trace (execute example_overlong_frame example_world))) = 2.
Proof.
  destruct (execute_past_end_of_instructions example_overlong_frame example_world)
    as (Hc & Hn & _).
  - discriminate.
  - eexists. reflexivity.
  - simpl. lia.
  - repeat constructor; eexists; vm_compute; reflexivity.
  - split; [exact Hc | exact Hn].
Defined.

Lemma execute_twice_same_draws_witness :
  let w1 := store (execute example_frame example_world) in
  completion (execute example_frame w1) = Normal tt ∧
  draw_calls (trace (execute example_frame w1)) =
    draw_calls (trace (execute example_frame example_world)) ∧
  bound_at 1 (trace (execute example_frame w1)) =
    bound_at 1 (trace (execute example_frame example_world)) ∧
  heap (store (execute example_frame w1)) = heap w1.
Proof.
  apply (execute_twice_same_draws example_frame example_frame example_world).
  - discriminate.
  - eexists. reflexivity.
  - simpl. lia.
  - repeat constructor; eexists; vm_compute; reflexivity.
  - discriminate.
  - reflexivity.
  - reflexivity.
Defined.

(** After the first pass slot 1 of the shader's groups holds null, the bind
    group the last batch had before it was drawn. *)
Lemma execute_leaves_previous_group_witness :
  ∃ s', read_shader OwnShader (store (execute example_frame example_world)) = Some s' ∧
        groups s' !! 1 = Some None.
Proof.
  apply (execute_leaves_previous_group example_frame example_world (example_shader 7)
           1 (example_batch 6 12 11)).
  - discriminate.
  - reflexivity.
  - simpl. lia.
  - repeat constructor; eexists; vm_compute; reflexivity.
  - simpl. lia.
  - reflexivity.
  - vm_compute. reflexivity.
  - right. simpl. intros Hin. apply list_elem_of_singleton in Hin. discriminate.
Defined.
End GpuGraphicsAdaptorMoreRuns.

(** ** More facts about [Application] *)

Module ApplicationMore.
Import Js JsFacts Application ApplicationLog ApplicationFacts ApplicationView.

Section Facts.
Context `{Collaborators} `{RendererProperties}.
Implicit Types (w : World) (l : list ApplicationPlugin) (a : Instance).

Lemma relog_run {St Ev Ev' A} (g : Ev → Ev') (m : Js.M St Ev A) s c s' t :
  m s = MkRun c s' t → relog g m s = MkRun c s' (g <$> t).
Proof. intros Hm. unfold relog. by rewrite Hm. Qed.

(** The three readers of [this.renderer], on an instance that has one and
    on an instance that has none. *)
Lemma readers_live this w a r :
  instances w !! this = Some a → renderer a = Some r →
  render this w = MkRun (Normal tt) w [inr (RendererRender r (stage a))] ∧
  canvas this w = MkRun (Normal (renderer_element r)) w [] ∧
  screen this w = MkRun (Normal (renderer_screen r)) w [].
Proof.
  intros Ha Hr.
  cbv [render canvas screen the_renderer relog the_instance bind get ret emit throw].
  repeat progress (rewrite ?Ha, ?Hr; cbn [fmap list_fmap app]).
  done.
Qed.

Lemma readers_null this w a :
  instances w !! this = Some a → renderer a = None →
  render this w = MkRun (Abrupt (TypeError "renderer is null")) w [] ∧
  canvas this w = MkRun (Abrupt (TypeError "renderer is null")) w [] ∧
  screen this w = MkRun (Abrupt (TypeError "renderer is null")) w [].
Proof.
  intros Ha Hr.
  cbv [render canvas screen the_renderer relog the_instance bind get ret emit throw].
  repeat progress (rewrite ?Ha, ?Hr; cbn [fmap list_fmap app]).
  done.
Qed.

(** The store a completed [destroy] leaves. *)
Lemma destroy_live_run this options w l a c r :
  arrays w !! _plugins w = Some l →
  instances w !! this = Some a → stage a = Some c → renderer a = Some r →
  destroy this options w =
    MkRun (Normal tt)
      (write_instances (<[this := {| stage := None; renderer := None |}]> (instances w))
         (write_arrays (<[fresh (dom (arrays w)) := reverse l]> (arrays w)) w))
      (((λ p, PluginDestroy p this) <$> reverse l) ++
       [ContainerDestroy c (destroy_options options);
        RendererDestroy r (destroy_options options)]).
Proof.
  intros Hl Ha Hc Hr. rewrite (application_destroy_run _ _ _ _ Hl). cbv zeta.
  by rewrite Ha, Hc, Hr.
Qed.

Lemma registry_after_destroy w l :
  arrays w !! _plugins w = Some l →
  <[fresh (dom (arrays w)) := reverse l]> (arrays w) !! _plugins w = Some l.
Proof.
  intros Hl. rewrite lookup_insert_ne; [done|].
  intros Heq. apply (is_fresh (dom (arrays w))). rewrite Heq.
  apply elem_of_dom. by eexists.
Qed.

(** X9 ([init], lines 80 to 86).  When backend detection is rejected, [init]
    is rejected too: it has asked for a renderer with the merged options and
    done nothing else; no plugin is initialised and the application is as
    it was. *)
Theorem init_rejected_without_backend this options w :
  autoDetectRenderer (merged_options options) = None →
  init this options w =
    MkRun (Abrupt (Rejection "autoDetectRenderer")) w
          [AutoDetectRenderer (merged_options options)].
Proof.
  intros Hr. unfold init. fold (merged_options options). rewrite Hr.
  by cbv [bind emit throw].
Qed.

(** X10 ([init], lines 80 to 86).  A completed [init] stores the detected
    renderer in [this.renderer] and writes nothing else: the stage of the
    application, every other application, the plugin registry and all arrays
    are as they were. *)
Theorem init_writes_renderer_only this options w a l r :
  autoDetectRenderer (merged_options options) = Some r →
  instances w !! this = Some a →
  arrays w !! _plugins w = Some l →
  instances (store (init this options w)) !! this =
    Some {| stage := stage a; renderer := Some r |} ∧
  (∀ other, other ≠ this →
     instances (store (init this options w)) !! other = instances w !! other) ∧
  arrays (store (init this options w)) = arrays w ∧
  _plugins (store (init this options w)) = _plugins w.
Proof.
  intros Hr Ha Hl. rewrite (init_run _ _ _ _ _ _ Hr Ha Hl).
  cbn [store instances arrays _plugins write_instances].
  split; [by rewrite lookup_insert_eq|]. split; [|done].
  intros other Hne. by rewrite lookup_insert_ne.
Qed.

(** X11 ([destroy], lines 135 to 147).  [destroy] on an application that
    was never initialised (it has a stage and no renderer) destroys the
    plugins in reverse order, destroys the stage and nulls it, and then
    throws a [TypeError] on the missing renderer. *)
Theorem destroy_without_renderer this options w l a c :
  arrays w !! _plugins w = Some l →
  instances w !! this = Some a →
  stage a = Some c →
  renderer a = None →
  completion (destroy this options w) = Abrupt (TypeError "renderer is null") ∧
  trace (destroy this options w) =
    ((λ p, PluginDestroy p this) <$> reverse l) ++
    [ContainerDestroy c (destroy_options options)] ∧
  instances (store (destroy this options w)) !! this =
    Some {| stage := None; renderer := None |}.
Proof.
  intros Hl Ha Hc Hr. rewrite (application_destroy_run _ _ _ _ Hl). cbv zeta.
  rewrite Ha, Hc, Hr. cbn [completion trace store instances write_instances].
  rewrite lookup_insert_eq. unfold set_stage. by rewrite Hr.
Qed.

(** X12 ([destroy], lines 135 to 144).  [destroy] is not idempotent: called
    again after it has completed, it calls the [destroy] of every plugin a
    second time, in reverse order, then throws a [TypeError] on the null
    stage; neither a stage nor a renderer is destroyed twice. *)
Theorem destroy_twice this options options2 w l a c r :
  arrays w !! _plugins w = Some l →
  instances w !! this = Some a →
  stage a = Some c →
  renderer a = Some r →
  let w1 := store (destroy this options w) in
  completion (destroy this options2 w1) = Abrupt (TypeError "stage is null") ∧
  trace (destroy this options2 w1) = (λ p, PluginDestroy p this) <$> reverse l ∧
  instances (store (destroy this options2 w1)) !! this =
    Some {| stage := None; renderer := None |}.
Proof.
  intros Hl Ha Hc Hr. cbv zeta.
  rewrite (destroy_live_run _ _ _ _ _ _ _ Hl Ha Hc Hr). cbn [store].
  set (w1 := write_instances _ _).
  assert (Hl1 : arrays w1 !! _plugins w1 = Some l) by exact (registry_after_destroy w l Hl).
  rewrite (application_destroy_run _ _ _ _ Hl1). cbv zeta.
  assert (Ha1 : instances w1 !! this = Some {| stage := None; renderer := None |})
    by apply lookup_insert_eq.
  rewrite Ha1. cbn [stage completion trace store instances write_arrays]. done.
Qed.

(** X13 ([destroy], lines 135 to 147).  However it ends, [destroy] writes no
    application but its own and no array that existed before the call. *)
Theorem destroy_writes_own_instance_only this options w :
  (∀ other, other ≠ this →
     instances (store (destroy this options w)) !! other = instances w !! other) ∧
  (∀ r, is_Some (arrays w !! r) →
     arrays (store (destroy this options w)) !! r = arrays w !! r).
Proof.
  destruct (arrays w !! _plugins w) as [l|] eqn:Hl.
  - rewrite (application_destroy_run _ _ _ _ Hl). cbv zeta.
    assert (Hfresh : ∀ r, is_Some (arrays w !! r) → fresh (dom (arrays w)) ≠ r).
    { intros r Hr Heq. apply (is_fresh (dom (arrays w))). rewrite Heq.
      by apply elem_of_dom. }
    destruct (instances w !! this) as [a|] eqn:Ha;
      [destruct (stage a) as [c0|]; [destruct (renderer a) as [r0|]|]|];
      cbn [store instances arrays write_instances write_arrays];
      (split; [intros other Hne; by rewrite ?lookup_insert_ne
              |intros r1 Hr1; by rewrite lookup_insert_ne by by apply Hfresh]).
  - by rewrite (destroy_no_registry _ _ _ Hl).
Qed.
(** The store a completed [init] leaves. *)
Lemma init_store this options w a l r :
  autoDetectRenderer (merged_options options) = Some r →
  instances w !! this = Some a →
  arrays w !! _plugins w = Some l →
  let w1 := store (init this options w) in
  completion (init this options w) = Normal tt ∧
  instances w1 !! this = Some {| stage := stage a; renderer := Some r |} ∧
  arrays w1 !! _plugins w1 = Some l.
Proof.
  intros Hr Ha Hl. cbv zeta. rewrite (init_run _ _ _ _ _ _ Hr Ha Hl).
  cbn [completion store instances arrays _plugins write_instances].
  by rewrite lookup_insert_eq.
Qed.

(** X14 ([init], [render], [destroy]).  The whole life of an application
    with a stage: [init] asks for a renderer and initialises the plugins in
    registration order, [render] renders the stage with the renderer [init]
    got, and [destroy] destroys the plugins in reverse order, then the
    stage, then that same renderer, and leaves both references null. *)
Theorem application_life this options doptions w a c l r :
  autoDetectRenderer (merged_options options) = Some r →
  instances w !! this = Some a →
  stage a = Some c →
  arrays w !! _plugins w = Some l →
  let life :=
    bind (life_init this options)
      (λ _, bind (render this) (λ _, life_destroy this doptions)) in
  completion (life w) = Normal tt ∧
  trace (life w) =
    (inl <$> (AutoDetectRenderer (merged_options options)
                :: ((λ p, PluginInit p this (merged_options options)) <$> l))) ++
    [inr (RendererRender r (Some c))] ++
    (inl <$> (((λ p, PluginDestroy p this) <$> reverse l) ++
              [ContainerDestroy c (destroy_options doptions);
               RendererDestroy r (destroy_options doptions)])) ∧
  instances (store (life w)) !! this = Some {| stage := None; renderer := None |}.
Proof.
  intros Hr Ha Hc Hl. cbv zeta. unfold bind, life_init, life_destroy.
  rewrite (relog_run _ _ _ _ _ _ (init_run _ _ _ _ _ _ Hr Ha Hl)).
  set (w1 := write_instances _ w).
  assert (Ha1 : instances w1 !! this = Some (set_renderer (Some r) a))
    by apply lookup_insert_eq.
  destruct (readers_live this w1 _ r Ha1 eq_refl) as (-> & _ & _).
  rewrite (relog_run _ _ _ _ _ _
             (destroy_live_run this doptions w1 l _ c r Hl Ha1 Hc eq_refl)).
  cbn [completion store trace instances write_instances stage set_renderer].
  rewrite Hc, lookup_insert_eq. done.
Qed.

(** X15 ([get canvas], [get screen], [render]).  After a completed [init]
    the getters return the canvas element and the screen of the renderer
    that backend detection gave, [render] passes the stage of the
    application to that renderer, and none of the three writes anything. *)
Theorem readers_after_init this options w a l r :
  autoDetectRenderer (merged_options options) = Some r →
  instances w !! this = Some a →
  arrays w !! _plugins w = Some l →
  let w1 := store (init this options w) in
  canvas this w1 = MkRun (Normal (renderer_element r)) w1 [] ∧
  screen this w1 = MkRun (Normal (renderer_screen r)) w1 [] ∧
  render this w1 = MkRun (Normal tt) w1 [inr (RendererRender r (stage a))].
Proof.
  intros Hr Ha Hl. cbv zeta.
  destruct (init_store _ _ _ _ _ _ Hr Ha Hl) as (_ & Ha1 & _).
  destruct (readers_live this _ _ r Ha1 eq_refl) as (Hrender & Hcanvas & Hscreen).
  by rewrite Hrender, Hcanvas, Hscreen.
Qed.

(** X16 ([render], [get canvas], [get screen]).  [render] and both getters
    throw a [TypeError], without making a call or writing anything, on an
    application whose renderer is missing: before [init], and after a
    completed [destroy]. *)
Theorem readers_throw_without_renderer this w a :
  instances w !! this = Some a →
  (renderer a = None →
     render this w = MkRun (Abrupt (TypeError "renderer is null")) w [] ∧
     canvas this w = MkRun (Abrupt (TypeError "renderer is null")) w [] ∧
     screen this w = MkRun (Abrupt (TypeError "renderer is null")) w []) ∧
  (∀ options l c r,
     arrays w !! _plugins w = Some l → stage a = Some c → renderer a = Some r →
     let w1 := store (destroy this options w) in
     render this w1 = MkRun (Abrupt (TypeError "renderer is null")) w1 [] ∧
     canvas this w1 = MkRun (Abrupt (TypeError "renderer is null")) w1 [] ∧
     screen this w1 = MkRun (Abrupt (TypeError "renderer is null")) w1 []).
Proof.
  intros Ha. split.
  - intros Hr. by apply (readers_null this w a).
  - intros options l c r Hl Hc Hr. cbv zeta.
    rewrite (destroy_live_run _ _ _ _ _ _ _ Hl Ha Hc Hr). cbn [store].
    apply (readers_null this _ {| stage := None; renderer := None |}); [|done].
    apply lookup_insert_eq.
Qed.

(** X17 ([init], line 80; field [stage], line 59).  [init] does not bring the
    stage back: an application that is initialised again after a completed
    [destroy] has a renderer and a null stage, so [render] passes a null
    container and a further [destroy] throws on the stage after destroying
    the plugins, without destroying the new renderer. *)
Theorem init_after_destroy this doptions options doptions2 w l a c r r2 :
  arrays w !! _plugins w = Some l →
  instances w !! this = Some a →
  stage a = Some c →
  renderer a = Some r →
  autoDetectRenderer (merged_options options) = Some r2 →
  let w1 := store (destroy this doptions w) in
  let w2 := store (init this options w1) in
  completion (init this options w1) = Normal tt ∧
  instances w2 !! this = Some {| stage := None; renderer := Some r2 |} ∧
  render this w2 = MkRun (Normal tt) w2 [inr (RendererRender r2 None)] ∧
  completion (destroy this doptions2 w2) = Abrupt (TypeError "stage is null") ∧
  trace (destroy this doptions2 w2) = (λ p, PluginDestroy p this) <$> reverse l.
Proof.
  intros Hl Ha Hc Hr Hr2. cbv zeta.
  rewrite (destroy_live_run _ _ _ _ _ _ _ Hl Ha Hc Hr). cbn [store].
  set (w1 := write_instances _ _).
  assert (Hl1 : arrays w1 !! _plugins w1 = Some l) by exact (registry_after_destroy w l Hl).
  assert (Ha1 : instances w1 !! this = Some {| stage := None; renderer := None |})
    by apply lookup_insert_eq.
  destruct (init_store _ _ _ _ _ _ Hr2 Ha1 Hl1) as (Hok & Ha2 & Hl2).
  cbv zeta in Ha2, Hl2. cbn [stage] in Ha2.
  split; [done|]. split; [done|].
  destruct (readers_live this _ _ r2 Ha2 eq_refl) as (Hrender & _).
  split; [exact Hrender|].
  rewrite (application_destroy_run _ _ _ _ Hl2). cbv zeta.
  rewrite Ha2. cbn [stage completion trace]. done.
Qed.
End Facts.
End ApplicationMore.

(** ** More of the application on the example store *)

Module ApplicationMoreRuns.
Import Js Application ApplicationLog ApplicationExamples ApplicationView ApplicationMore.
#[local] Existing Instance example_detection.
#[local] Existing Instance example_properties.

Lemma init_rejected_without_backend_witness :
  init (H := example_no_backend) 1 (Some example_options) example_world =
    MkRun (Abrupt (Rejection "autoDetectRenderer")) example_world
          [AutoDetectRenderer (merged_options (Some example_options))].
Proof.
  apply (init_rejected_without_backend (H := example_no_backend) 1 (Some example_options) example_world).
  reflexivity.
Defined.

Lemma init_writes_renderer_only_witness :
  instances (store (init 1 None example_world)) !! 1 =
    Some {| stage := Some 4; renderer := Some 9 |} ∧
  arrays (store (init 1 None example_world)) = arrays example_world.
Proof.
  destruct (init_writes_renderer_only 1 None example_world
              {| stage := Some 4; renderer := None |} [11; 12; 13] 9)
    as (Hthis & _ & Harrays & _); [reflexivity | reflexivity | reflexivity |].
  split; [exact Hthis | exact Harrays].
Defined.

Lemma destroy_without_renderer_witness :
  completion (destroy 1 None example_world) = Abrupt (TypeError "renderer is null") ∧
  trace (destroy 1 None example_world) =
    [PluginDestroy 13 1; PluginDestroy 12 1; PluginDestroy 11 1;
     ContainerDestroy 4 (DestroyFlag false)] ∧
  instances (store (destroy 1 None example_world)) !! 1 =
    Some {| stage := None; renderer := None |}.
Proof.
  apply (destroy_without_renderer 1 None example_world [11; 12; 13]
           {| stage := Some 4; renderer := None |} 4); reflexivity.
Defined.

Lemma destroy_twice_witness :
  let w := store (init 1 None example_world) in
  let w1 := store (destroy 1 None w) in
  completion (destroy 1 (Some (DestroyFlag true)) w1) = Abrupt (TypeError "stage is null") ∧
  trace (destroy 1 (Some (DestroyFlag true)) w1) =
    [PluginDestroy 13 1; PluginDestroy 12 1; PluginDestroy 11 1] ∧
  instances (store (destroy 1 (Some (DestroyFlag true)) w1)) !! 1 =
    Some {| stage := None; renderer := None |}.
Proof.
  intros w.
  apply (destroy_twice 1 None (Some (DestroyFlag true)) w [11; 12; 13]
           {| stage := Some 4; renderer := Some 9 |} 4 9); reflexivity.
Defined.

Lemma destroy_writes_own_instance_only_witness :
  instances (store (destroy 1 None example_world)) !! 2 = instances example_world !! 2 ∧
  arrays (store (destroy 1 None example_world)) !! 0 = arrays example_world !! 0.
Proof.
  destruct (destroy_writes_own_instance_only 1 None example_world) as [Hother Harrays].
  split.
  - apply Hother. lia.
  - apply Harrays. eexists. reflexivity.
Defined.

Lemma application_life_witness :
  let life :=
    bind (life_init 1 None) (λ _, bind (render 1) (λ _, life_destroy 1 None)) in
  completion (life example_world) = Normal tt ∧
  trace (life example_world) =
    [inl (AutoDetectRenderer (merged_options None));
     inl (PluginInit 11 1 (merged_options None));
     inl (PluginInit 12 1 (merged_options None));
     inl (PluginInit 13 1 (merged_options None));
     inr (RendererRender 9 (Some 4));
     inl (PluginDestroy 13 1); inl (PluginDestroy 12 1); inl (PluginDestroy 11 1);
     inl (ContainerDestroy 4 (DestroyFlag false));
     inl (RendererDestroy 9 (DestroyFlag false))] ∧
  instances (store (life example_world)) !! 1 = Some {| stage := None; renderer := None |}.
Proof.
  apply (application_life 1 None None example_world
           {| stage := Some 4; renderer := None |} 4 [11; 12; 13] 9); reflexivity.
Defined.

Lemma readers_after_init_witness :
  let w1 := store (init 1 None example_world) in
  canvas 1 w1 = MkRun (Normal 30) w1 [] ∧
  screen 1 w1 = MkRun (Normal 31) w1 [] ∧
  render 1 w1 = MkRun (Normal tt) w1 [inr (RendererRender 9 (Some 4))].
Proof.
  exact (readers_after_init 1 None example_world
           {| stage := Some 4; renderer := None |} [11; 12; 13] 9
           eq_refl eq_refl eq_refl).
Defined.

Lemma readers_throw_without_renderer_witness :
  render 1 example_world =
    MkRun (Abrupt (TypeError "renderer is null")) example_world [] ∧
  (let w1 := store (destroy 1 None (store (init 1 None example_world))) in
   canvas 1 w1 = MkRun (Abrupt (TypeError "renderer is null")) w1 []).
Proof.
  split.
  - destruct (readers_throw_without_renderer 1 example_world
                {| stage := Some 4; renderer := None |} eq_refl) as [Hbefore _].
    apply (Hbefore eq_refl).
  - assert (Ha : instances (store (init 1 None example_world)) !! 1 =
                 Some {| stage := Some 4; renderer := Some 9 |}) by reflexivity.
    destruct (readers_throw_without_renderer 1 (store (init 1 None example_world))
                {| stage := Some 4; renderer := Some 9 |} Ha) as [_ Hafter].
    apply (Hafter None [11; 12; 13] 4 9); reflexivity.
Defined.

Lemma init_after_destroy_witness :
  let w := store (init 1 None example_world) in
  let w1 := store (destroy 1 None w) in
  let w2 := store (init 1 None w1) in
  completion (init 1 None w1) = Normal tt ∧
  instances w2 !! 1 = Some {| stage := None; renderer := Some 9 |} ∧
  render 1 w2 = MkRun (Normal tt) w2 [inr (RendererRender 9 None)] ∧
  completion (destroy 1 None w2) = Abrupt (TypeError "stage is null") ∧
  trace (destroy 1 None w2) = [PluginDestroy 13 1; PluginDestroy 12 1; PluginDestroy 11 1].
Proof.
  intros w.
  apply (init_after_destroy 1 None None None w [11; 12; 13]
           {| stage := Some 4; renderer := Some 9 |} 4 9 9); reflexivity.
Defined.
End ApplicationMoreRuns.
